(** * The OLT report parser of [olt_parser_app.py]

    A shallow embedding of [parse_olt_output] and of the five regular
    expressions it is driven by, followed by the properties of the parser.

    Text.  A Python [str] is modelled as a list of characters of type
    [ascii], read as the code points 0..255.  The character tables
    ([str.isspace], the classes [\d], [\s], [\w], [str.upper], the line
    boundaries of [str.splitlines]) are Python's tables restricted to that
    range.

    Errors.  A Python exception is a value [Raise e] of the type [result];
    the operations of the parser that can raise ([int], the unpacking of
    [str.split()] into two names) return a [result]. *)

From Stdlib Require Import Ascii String List NArith ZArith Bool Arith Lia.
Import ListNotations.

Set Implicit Arguments.

(* ================================================================== *)
(** * Characters and strings *)
(* ================================================================== *)

Definition str := list ascii.

(** A literal of the source text. *)
Definition s_ (s : string) : str := list_ascii_of_string s.

Definition code (c : ascii) : N := N_of_ascii c.

Definition LF : ascii := ascii_of_N 10.
Definition CR : ascii := ascii_of_N 13.

Definition in_range (lo hi : N) (c : ascii) : bool :=
  (N.leb lo (code c) && N.leb (code c) hi)%bool.

(** [str.isspace] on one character; also the class [\s] of [re]. *)
Definition isspace (c : ascii) : bool :=
  in_range 9 13 c || in_range 28 32 c || N.eqb (code c) 133 || N.eqb (code c) 160.

(** The class [\d] of [re]: decimal digits. *)
Definition isdecimal (c : ascii) : bool := in_range 48 57 c.

(** [str.isalnum] on one character: letters, and the characters with a
    digit or numeric value. *)
Definition isalnum (c : ascii) : bool :=
  in_range 48 57 c || in_range 65 90 c || in_range 97 122 c
  || N.eqb (code c) 170 || in_range 178 179 c || N.eqb (code c) 181
  || in_range 185 186 c || in_range 188 190 c
  || in_range 192 214 c || in_range 216 246 c || in_range 248 255 c.

(** The class [\w] of [re]. *)
Definition isword (c : ascii) : bool := isalnum c || Ascii.eqb c "_".

(** The characters at which [str.splitlines] cuts. *)
Definition is_linebreak (c : ascii) : bool :=
  in_range 10 13 c || in_range 28 30 c || N.eqb (code c) 133.

Fixpoint str_eqb (a b : str) : bool :=
  match a, b with
  | [], [] => true
  | x :: a', y :: b' => Ascii.eqb x y && str_eqb a' b'
  | _, _ => false
  end.

Fixpoint startswith (p s : str) : bool :=
  match p, s with
  | [], _ => true
  | x :: p', y :: s' => Ascii.eqb x y && startswith p' s'
  | _ :: _, [] => false
  end.

Fixpoint dropwhile (p : ascii -> bool) (s : str) : str :=
  match s with
  | [] => []
  | c :: s' => if p c then dropwhile p s' else s
  end.

Definition lstrip (s : str) : str := dropwhile isspace s.
Definition rstrip (s : str) : str := rev (dropwhile isspace (rev s)).

(** [s.strip()] *)
Definition strip (s : str) : str := rstrip (lstrip s).

(** [s.splitlines()]: [cur] is the line being read, most recent character
    first.  A carriage return followed by a line feed is one boundary, and
    a boundary at the very end opens no further line. *)
Fixpoint splitlines_from (cur : str) (s : str) : list str :=
  match s with
  | [] => match cur with [] => [] | _ => [rev cur] end
  | c :: s' =>
      if is_linebreak c then
        if Ascii.eqb c CR then
          match s' with
          | d :: s'' =>
              if Ascii.eqb d LF then rev cur :: splitlines_from [] s''
              else rev cur :: splitlines_from [] s'
          | [] => rev cur :: splitlines_from [] s'
          end
        else rev cur :: splitlines_from [] s'
      else splitlines_from (c :: cur) s'
  end.

Definition splitlines (s : str) : list str := splitlines_from [] s.

(** [s.split(sep)] for a one-character separator: never empty. *)
Fixpoint split_on (sep : ascii) (s : str) : list str :=
  match s with
  | [] => [[]]
  | c :: s' =>
      if Ascii.eqb c sep then [] :: split_on sep s'
      else match split_on sep s' with
           | h :: t => (c :: h) :: t
           | [] => [[c]]
           end
  end.

(** [s.split()]: the maximal runs of characters that are not whitespace.
    [cur] is the run being read, in order. *)
Fixpoint split_ws_from (cur : str) (s : str) : list str :=
  match s with
  | [] => match cur with [] => [] | _ => [cur] end
  | c :: s' =>
      if isspace c then
        match cur with
        | [] => split_ws_from [] s'
        | _ => cur :: split_ws_from [] s'
        end
      else split_ws_from (cur ++ [c]) s'
  end.

Definition split_ws (s : str) : list str := split_ws_from [] s.

(** [str.upper] on one character of the range 0 to 255, as code points:
    the uppercase of a character of the range may lie outside it (U+0178,
    U+039C) or be two characters long ("SS").  Characters beyond the range
    are not part of the model; one of them, U+0149, has an uppercase of
    two characters that ends with N. *)
Definition upper_char (c : ascii) : list N :=
  let n := code c in
  if in_range 97 122 c then [n - 32]%N
  else if N.eqb n 181 then [924]%N
  else if N.eqb n 223 then [83; 83]%N
  else if N.eqb n 255 then [376]%N
  else if in_range 224 254 c && negb (N.eqb n 247) then [n - 32]%N
  else [n].

(** [s.upper()] *)
Definition upper (s : str) : list N := flat_map upper_char s.

Definition codes (s : str) : list N := map code s.

Fixpoint codes_eqb (a b : list N) : bool :=
  match a, b with
  | [], [] => true
  | x :: a', y :: b' => N.eqb x y && codes_eqb a' b'
  | _, _ => false
  end.

(** [u.endswith(suffix)] on code points. *)
Definition endswith (suffix u : list N) : bool :=
  (length suffix <=? length u)
  && codes_eqb (skipn (length u - length suffix) u) suffix.

(* ================================================================== *)
(** * Exceptions *)
(* ================================================================== *)

Inductive exn := ValueError.

Inductive result (A : Type) : Type :=
| Ok (a : A)
| Raise (e : exn).

Arguments Ok {A} a.
Arguments Raise {A} e.

Definition bind {A B} (m : result A) (f : A -> result B) : result B :=
  match m with
  | Ok a => f a
  | Raise e => Raise e
  end.

Notation "x <- m ;; k" := (bind m (fun x => k))
  (at level 61, m at next level, right associativity).

Fixpoint mapM {A B} (f : A -> result B) (l : list A) : result (list B) :=
  match l with
  | [] => Ok []
  | a :: l' => b <- f a ;; bs <- mapM f l' ;; Ok (b :: bs)
  end.

(** [int(s)] in base ten: surrounding whitespace, an optional sign, then
    digits, where a single underscore may stand between two digits.
    [acc] is the value read so far and [prev] tells whether the previous
    character was a digit. *)
Fixpoint int_digits (acc : Z) (prev : bool) (s : str) : result Z :=
  match s with
  | [] => if prev then Ok acc else Raise ValueError
  | c :: s' =>
      if isdecimal c then
        int_digits (10 * acc + Z.of_N (code c - 48)) true s'
      else if Ascii.eqb c "_" && prev then int_digits acc false s'
      else Raise ValueError
  end.

(** The limit of the interpreter on the number of digits of a text that
    [int] converts ([sys.get_int_max_str_digits()], 4300 unless the
    interpreter is told otherwise). *)
Definition int_max_str_digits : nat := 4300.

(** The digits of a text: signs, underscores and whitespace do not
    count, leading zeros do. *)
Definition digit_count (s : str) : nat := length (filter isdecimal s).

(** [int(s)]: a text with more digits than the limit raises [ValueError],
    as a text that is not a number does. *)
Definition py_int (s : str) : result Z :=
  match strip s with
  | c :: t =>
      if int_max_str_digits <? digit_count (c :: t) then Raise ValueError
      else if Ascii.eqb c "-" then n <- int_digits 0 false t ;; Ok (- n)%Z
      else if Ascii.eqb c "+" then int_digits 0 false t
      else int_digits 0 false (c :: t)
  | [] => Raise ValueError
  end.

(* ================================================================== *)
(** * Regular expressions *)
(* ================================================================== *)

(** The fragment of Python's [re] that the five patterns of the program
    are written in: literal text, a character class under a greedy
    quantifier, concatenation, alternation, numbered groups and the two
    anchors.  The matcher backtracks as [re] does: a quantifier first takes
    as many characters as it can and gives them back one by one, an
    alternation tries its branches from left to right, and the first
    complete match is the one reported. *)
Module Re.

Inductive regex : Type :=
| Lit (s : str)
| Cls (p : ascii -> bool) (lo : nat) (hi : option nat)
| Seq (r1 r2 : regex)
| Alt (r1 r2 : regex)
| Group (i : nat) (r : regex)
| Bol
| Eol.

(** What the groups have captured so far, most recent first. *)
Definition caps := list (nat * str).

Fixpoint lookup (i : nat) (m : caps) : option str :=
  match m with
  | [] => None
  | (j, s) :: m' => if Nat.eqb i j then Some s else lookup i m'
  end.

(** [m.group(i)] of a match object, for a group that took part in the
    match (in the five patterns every group does). *)
Definition group (i : nat) (m : caps) : str :=
  match lookup i m with
  | Some s => s
  | None => []
  end.

Definition dec (hi : option nat) : option nat := option_map Nat.pred hi.

Definition room (hi : option nat) : bool :=
  match hi with
  | Some 0 => false
  | _ => true
  end.

(** Greedy repetition of a class, between [lo] and [hi] times. *)
Fixpoint rep {R} (p : ascii -> bool) (lo : nat) (hi : option nat)
         (s : str) (k : str -> option R) : option R :=
  let stop := match lo with 0 => k s | S _ => None end in
  match s with
  | c :: s' =>
      if p c && room hi then
        match rep p (Nat.pred lo) (dec hi) s' k with
        | Some x => Some x
        | None => stop
        end
      else stop
  | [] => stop
  end.

Fixpoint lit {R} (l : str) (s : str) (k : str -> option R) : option R :=
  match l with
  | [] => k s
  | a :: l' =>
      match s with
      | c :: s' => if Ascii.eqb a c then lit l' s' k else None
      | [] => None
      end
  end.

(** [$] matches at the end of the text and before a final line feed. *)
Definition at_end (s : str) : bool :=
  match s with
  | [] => true
  | [c] => Ascii.eqb c LF
  | _ => false
  end.

(** [run whole r s m k]: match [r] at the suffix [s] of the text [whole],
    then continue with [k]. *)
Fixpoint run {R} (whole : str) (r : regex) (s : str) (m : caps)
         (k : str -> caps -> option R) : option R :=
  match r with
  | Lit l => lit l s (fun s' => k s' m)
  | Cls p lo hi => rep p lo hi s (fun s' => k s' m)
  | Seq r1 r2 => run whole r1 s m (fun s1 m1 => run whole r2 s1 m1 k)
  | Alt r1 r2 =>
      match run whole r1 s m k with
      | Some x => Some x
      | None => run whole r2 s m k
      end
  | Group i r1 =>
      run whole r1 s m
          (fun s' m' => k s' ((i, firstn (length s - length s') s) :: m'))
  | Bol => if Nat.eqb (length s) (length whole) then k s m else None
  | Eol => if at_end s then k s m else None
  end.

Definition accept (s : str) (m : caps) : option caps := Some m.

(** [pattern.match(text)] *)
Definition match_ (r : regex) (text : str) : option caps :=
  run text r text [] accept.

Fixpoint search_from (whole : str) (r : regex) (s : str) : option caps :=
  match run whole r s [] accept with
  | Some m => Some m
  | None =>
      match s with
      | [] => None
      | _ :: s' => search_from whole r s'
      end
  end.

(** [pattern.search(text)] *)
Definition search (r : regex) (text : str) : option caps :=
  search_from text r text.

(** Quantifiers and classes of the concrete syntax. *)
Definition one (p : ascii -> bool) : regex := Cls p 1 (Some 1).
Definition plus (p : ascii -> bool) : regex := Cls p 1 None.
Definition star (p : ascii -> bool) : regex := Cls p 0 None.
Definition opt (p : ascii -> bool) : regex := Cls p 0 (Some 1).
Definition times (n : nat) (p : ascii -> bool) : regex := Cls p n (Some n).

Definition is_ (a : ascii) : ascii -> bool := fun c => Ascii.eqb c a.
Definition nonspace : ascii -> bool := fun c => negb (isspace c).
Definition dot : ascii -> bool := fun c => negb (Ascii.eqb c LF).
Definition either (p q : ascii -> bool) : ascii -> bool :=
  fun c => p c || q c.

End Re.

Import Re.

Declare Scope re_scope.
Delimit Scope re_scope with re.
Bind Scope re_scope with regex.
Infix "+++" := Seq (at level 60, right associativity) : re_scope.
Infix "<|>" := Alt (at level 65, right associativity) : re_scope.

(** ** The patterns of the program *)

(** [In port (\d+/\d+/\d+), the total of ONTs are: \d+, online: \d+] *)
Definition PORT_HEADER_RE : regex :=
  (Lit (s_ "In port ")
   +++ Group 1 (plus isdecimal +++ Lit (s_ "/") +++ plus isdecimal
                +++ Lit (s_ "/") +++ plus isdecimal)
   +++ Lit (s_ ", the total of ONTs are: ") +++ plus isdecimal
   +++ Lit (s_ ", online: ") +++ plus isdecimal)%re.

(** [ONT\s+Run\s+Last\s+Last\s+Last] *)
Definition TABLE1_HEADER_RE : regex :=
  (Lit (s_ "ONT") +++ plus isspace +++ Lit (s_ "Run") +++ plus isspace
   +++ Lit (s_ "Last") +++ plus isspace +++ Lit (s_ "Last")
   +++ plus isspace +++ Lit (s_ "Last"))%re.

(** [ONT\s+SN\s+Type\s+Distance\s+Rx/Tx power\s+Description] *)
Definition TABLE2_HEADER_RE : regex :=
  (Lit (s_ "ONT") +++ plus isspace +++ Lit (s_ "SN") +++ plus isspace
   +++ Lit (s_ "Type") +++ plus isspace +++ Lit (s_ "Distance")
   +++ plus isspace +++ Lit (s_ "Rx/Tx power") +++ plus isspace
   +++ Lit (s_ "Description"))%re.

(** [[\d-]{10}\s[\d:]{8}|-] *)
Definition datetime_or_dash : regex :=
  ((times 10 (either isdecimal (is_ "-")) +++ one isspace
    +++ times 8 (either isdecimal (is_ ":")))
   <|> Lit (s_ "-"))%re.

(** The pattern of a Table-1 data line, piece by piece:
    [^\s*], group 1 [\d+], [\s+], group 2 [online|offline], [\s+],
    group 3 [[\d-]{10}\s[\d:]{8}|-], [\s+], group 4 the same, [\s+],
    group 5 [[\w/-]+|-], [\s*$]. *)
Definition TABLE1_DATA_RE : regex :=
  (Bol +++ star isspace
   +++ Group 1 (plus isdecimal) +++ plus isspace
   +++ Group 2 (Lit (s_ "online") <|> Lit (s_ "offline")) +++ plus isspace
   +++ Group 3 datetime_or_dash +++ plus isspace
   +++ Group 4 datetime_or_dash +++ plus isspace
   +++ Group 5 (plus (either isword (either (is_ "/") (is_ "-")))
                <|> Lit (s_ "-"))
   +++ star isspace +++ Eol)%re.

(** [[0-9A-Fa-f]] *)
Definition ishex (c : ascii) : bool :=
  in_range 48 57 c || in_range 65 70 c || in_range 97 102 c.

(** The pattern of a Table-2 data line, piece by piece:
    [^\s*], group 1 [\d+], [\s+], group 2 [[0-9A-Fa-f]{16}|-], [\s+],
    group 3 [\S+], [\s+], group 4 [\d+|-], [\s+],
    group 5 [\S+/-?\S+|-/-], [\s+], group 6 [.*], [\s*$]. *)
Definition TABLE2_DATA_RE : regex :=
  (Bol +++ star isspace
   +++ Group 1 (plus isdecimal) +++ plus isspace
   +++ Group 2 (times 16 ishex <|> Lit (s_ "-")) +++ plus isspace
   +++ Group 3 (plus nonspace) +++ plus isspace
   +++ Group 4 (plus isdecimal <|> Lit (s_ "-")) +++ plus isspace
   +++ Group 5 ((plus nonspace +++ Lit (s_ "/") +++ opt (is_ "-")
                 +++ plus nonspace)
                <|> Lit (s_ "-/-"))
   +++ plus isspace
   +++ Group 6 (star dot)
   +++ star isspace +++ Eol)%re.

(* ================================================================== *)
(** * Dictionaries *)
(* ================================================================== *)

(** A Python [dict] with string keys.  Iteration follows insertion order,
    and assigning to a key that is present keeps the key where it is: the
    dictionary is the list of its items, in that order. *)
Section Dict.

Variable V : Type.

Definition dict := list (str * V).

(** [d.get(k)] *)
Fixpoint dict_get (k : str) (d : dict) : option V :=
  match d with
  | [] => None
  | (k', v) :: d' => if str_eqb k k' then Some v else dict_get k d'
  end.

(** [d[k] = v] *)
Fixpoint dict_set (k : str) (v : V) (d : dict) : dict :=
  match d with
  | [] => [(k, v)]
  | (k', v') :: d' =>
      if str_eqb k k' then (k', v) :: d' else (k', v') :: dict_set k v d'
  end.

Definition keys (d : dict) : list str := map fst d.

End Dict.

(* ================================================================== *)
(** * The parser *)
(* ================================================================== *)

(** The value stored under a device id in [port_data_table1]. *)
Record t1_data := {
  t1_Run_State : str;
  t1_UpDateTime : str;
  t1_DownDateTime : str;
  t1_DownCause : str
}.

(** The value stored under a device id in [port_data_table2]. *)
Record t2_data := {
  t2_SN : str;
  t2_Type : str;
  t2_Distance : str;
  t2_Power : str;
  t2_Description : str
}.

(** One element of the list that [parse_olt_output] returns. *)
Record record := {
  OLT_Name : str;
  PON_Port : str;
  ONT_ID : Z;
  Run_State : str;
  Last_UpDate : str;
  Last_UpTime : str;
  Last_DownDate : str;
  Last_DownTime : str;
  Last_DownCause : str;
  SN : str;
  Type_ : str;
  Distance_m : str;
  RxTx_power : str;
  Description : str;
  PoP : str
}.

Inductive table := table1 | table2.

(** The local variables of [parse_olt_output] that live across the loop. *)
Record pstate := {
  all_ont_data : list record;
  current_port : option str;
  parsing_state : option table;
  port_data_table1 : dict t1_data;
  port_data_table2 : dict t2_data
}.

Definition initial : pstate :=
  {| all_ont_data := []; current_port := None; parsing_state := None;
     port_data_table1 := []; port_data_table2 := [] |}.

Definition NA : str := s_ "N/A".
Definition dash : str := s_ "-".
Definition Unknown_PoP : str := s_ "Unknown PoP".

(** The derivation of [pop_name] from [olt_name].  Nothing in the [try]
    block can raise on a string, so the [except] branch is never taken. *)
Definition pop_name (olt_name : str) : str :=
  let parts := split_on "-" olt_name in
  if 3 <=? length parts then
    if endswith (codes (s_ "NOC1")) (upper (last parts [])) then last parts []
    else if 5 <=? length (last parts []) then last parts []
    else if 4 <=? length parts then
      nth (length parts - 2) parts [] ++ s_ "-" ++ last parts []
    else Unknown_PoP
  else Unknown_PoP.

(** The type codes that are given a product name. *)
Definition map_type (ont_type : str) : str :=
  if str_eqb ont_type (s_ "1112") then s_ "GP1702-4G"
  else if str_eqb ont_type (s_ "1108") then s_ "GP1702-4G-M"
  else ont_type.

(** [a, b = v.split() if v != '-' else ('-', '-')] *)
Definition split_datetime (v : str) : result (str * str) :=
  if negb (str_eqb v dash) then
    match split_ws v with
    | [a; b] => Ok (a, b)
    | _ => Raise ValueError
    end
  else Ok (dash, dash).

(** [t2_data.get(field, 'N/A')] where [t2_data] is the Table-2 entry of the
    device or the empty dictionary. *)
Definition t2_field (f : t2_data -> str) (t2 : option t2_data) : str :=
  match t2 with
  | Some d => f d
  | None => NA
  end.

(** The body of the loop over [port_data_table1.items()]. *)
Definition make_record (olt_name pop port : str) (tab2 : dict t2_data)
           (item : str * t1_data) : result record :=
  let (ont_id_str, t1) := item in
  ont_id <- py_int ont_id_str ;;
  let t2 := dict_get ont_id_str tab2 in
  up <- split_datetime (t1_UpDateTime t1) ;;
  down <- split_datetime (t1_DownDateTime t1) ;;
  Ok {| OLT_Name := olt_name;
        PON_Port := port;
        ONT_ID := ont_id;
        Run_State := t1_Run_State t1;
        Last_UpDate := fst up;
        Last_UpTime := snd up;
        Last_DownDate := fst down;
        Last_DownTime := snd down;
        Last_DownCause := t1_DownCause t1;
        SN := t2_field t2_SN t2;
        Type_ := t2_field t2_Type t2;
        Distance_m := t2_field t2_Distance t2;
        RxTx_power := t2_field t2_Power t2;
        Description := t2_field t2_Description t2;
        PoP := pop |}.

(** The records of one completed port.  The program has this loop twice,
    word for word: where a port header closes the previous port, and after
    the last line. *)
Definition combine_port (olt_name pop port : str)
           (tab1 : dict t1_data) (tab2 : dict t2_data) : result (list record) :=
  mapM (make_record olt_name pop port tab2) tab1.

Definition flush (olt_name pop : str) (st : pstate) : result (list record) :=
  match current_port st with
  | Some port =>
      combine_port olt_name pop port
                   (port_data_table1 st) (port_data_table2 st)
  | None => Ok []
  end.

Definition set_state (t : table) (st : pstate) : pstate :=
  {| all_ont_data := all_ont_data st; current_port := current_port st;
     parsing_state := Some t;
     port_data_table1 := port_data_table1 st;
     port_data_table2 := port_data_table2 st |}.

(** [port_data_table1[ont_id_str] = {...}] from a match of the Table-1
    data pattern. *)
Definition store_table1 (m : caps) (st : pstate) : pstate :=
  {| all_ont_data := all_ont_data st; current_port := current_port st;
     parsing_state := parsing_state st;
     port_data_table1 :=
       dict_set (group 1 m)
                {| t1_Run_State := group 2 m;
                   t1_UpDateTime := group 3 m;
                   t1_DownDateTime := group 4 m;
                   t1_DownCause := group 5 m |}
                (port_data_table1 st);
     port_data_table2 := port_data_table2 st |}.

(** [port_data_table2[ont_id_str] = {...}] from a match of the Table-2
    data pattern. *)
Definition store_table2 (m : caps) (st : pstate) : pstate :=
  {| all_ont_data := all_ont_data st; current_port := current_port st;
     parsing_state := parsing_state st;
     port_data_table1 := port_data_table1 st;
     port_data_table2 :=
       dict_set (group 1 m)
                {| t2_SN := group 2 m;
                   t2_Type := map_type (group 3 m);
                   t2_Distance := group 4 m;
                   t2_Power := group 5 m;
                   t2_Description := strip (group 6 m) |}
                (port_data_table2 st) |}.

(** A line inside a port section that is not a port header: the table
    headers, the separator, then the data line of the current table. *)
Definition section_line (st : pstate) (line : str) : pstate :=
  match search TABLE1_HEADER_RE line with
  | Some _ => set_state table1 st
  | None =>
  match search TABLE2_HEADER_RE line with
  | Some _ => set_state table2 st
  | None =>
  if startswith (s_ "---") line then st
  else
    match parsing_state st with
    | Some table1 =>
        match match_ TABLE1_DATA_RE line with
        | Some m => store_table1 m st
        | None => st
        end
    | Some table2 =>
        match match_ TABLE2_DATA_RE line with
        | Some m => store_table2 m st
        | None => st
        end
    | None => st
    end
  end end.

(** One turn of the loop [for line in lines]. *)
Definition step (olt_name pop : str) (st : pstate) (raw : str)
  : result pstate :=
  let line := strip raw in
  match line with
  | [] => Ok st
  | _ =>
      match search PORT_HEADER_RE line with
      | Some port_match =>
          recs <- flush olt_name pop st ;;
          Ok {| all_ont_data := all_ont_data st ++ recs;
                current_port := Some (group 1 port_match);
                parsing_state := None;
                port_data_table1 := [];
                port_data_table2 := [] |}
      | None =>
          match current_port st with
          | None => Ok st
          | Some _ => Ok (section_line st line)
          end
      end
  end.

Fixpoint loop (olt_name pop : str) (st : pstate) (lines : list str)
  : result pstate :=
  match lines with
  | [] => Ok st
  | raw :: rest => st' <- step olt_name pop st raw ;; loop olt_name pop st' rest
  end.

Definition parse_olt_output (text_content olt_name : str)
  : result (list record) :=
  let pop := pop_name olt_name in
  st <- loop olt_name pop initial (splitlines text_content) ;;
  recs <- flush olt_name pop st ;;
  Ok (all_ont_data st ++ recs).

(** ** Sample input *)

(** The lines of a report, each closed by a line feed. *)
Definition unlines (ls : list string) : str :=
  flat_map (fun l => s_ l ++ [LF]) ls.

Definition port_header_0_1_0 : string :=
  "In port 0/1/0, the total of ONTs are: 1, online: 1".
Definition table1_header : string :=
  "ONT  Run     Last                Last                Last".
Definition table2_header : string :=
  "ONT  SN                Type      Distance  Rx/Tx power  Description".

Definition report_one_device : str :=
  unlines [ port_header_0_1_0;
            table1_header;
            "1 online 2023-01-01 10:00:00 - -"%string;
            table2_header;
            "1 ABCDEF0123456789 1112 120 -25.3/2.1 Customer A"%string ].

(* ================================================================== *)
(** * The notions of the statements *)
(* ================================================================== *)

(** What the properties below are stated with: the meaning of a pattern,
    the shape of what the data patterns capture, the port sections of a
    text with their accumulators, the rows of a section, and the sample
    reports. *)

(** ** What a match says about the text *)

(** [fits hi n]: [n] repetitions respect the upper bound [hi]. *)
Definition fits (hi : option nat) (n : nat) : Prop :=
  match hi with
  | Some h => n <= h
  | None => True
  end.

(** [Sem whole r s s' m m']: the pattern [r] can take the text between the
    suffixes [s] and [s'] of [whole], and doing so turns the captures [m]
    into [m']. *)
Fixpoint Sem (whole : str) (r : regex) (s s' : str) (m m' : caps) : Prop :=
  match r with
  | Lit l => s = l ++ s' /\ m' = m
  | Cls p lo hi =>
      exists pre, s = pre ++ s' /\ forallb p pre = true
                  /\ lo <= length pre /\ fits hi (length pre) /\ m' = m
  | Seq r1 r2 =>
      exists s1 m1, Sem whole r1 s s1 m m1 /\ Sem whole r2 s1 s' m1 m'
  | Alt r1 r2 => Sem whole r1 s s' m m' \/ Sem whole r2 s s' m m'
  | Group i r1 =>
      exists pre m1, s = pre ++ s' /\ Sem whole r1 s s' m m1
                     /\ m' = (i, pre) :: m1
  | Bol => s' = s /\ m' = m /\ length s = length whole
  | Eol => s' = s /\ m' = m /\ at_end s = true
  end.

(** ** Whitespace, digits and the string operations *)

(** The number that a text of decimal digits denotes. *)
Definition digits_value (acc : Z) (s : str) : Z :=
  fold_left (fun a c => (10 * a + Z.of_N (code c - 48))%Z) s acc.

(** ** What the data patterns capture *)

(** A non-empty text of decimal digits: what [\d+] takes. *)
Definition decimal_text (s : str) : Prop :=
  s <> [] /\ forallb isdecimal s = true.

(** What the timestamp group of a Table-1 row takes: a dash, or ten
    characters of [[\d-]], one whitespace character and eight characters of
    [[\d:]]. *)
Definition stored_datetime (v : str) : Prop :=
  v = dash \/
  exists d w t,
    v = d ++ [w] ++ t
    /\ length d = 10 /\ forallb (either isdecimal (is_ "-")) d = true
    /\ isspace w = true
    /\ length t = 8 /\ forallb (either isdecimal (is_ ":")) t = true.

(** ** The partial operations of the flush *)

(** An item of the Table-1 accumulator on which the flush cannot raise. *)
Definition wf_t1 (item : str * t1_data) : Prop :=
  decimal_text (fst item)
  /\ stored_datetime (t1_UpDateTime (snd item))
  /\ stored_datetime (t1_DownDateTime (snd item)).

(** ** Port sections *)

(** The port that a line opens, when it is a port header. *)
Definition port_of (line : str) : option str :=
  option_map (group 1) (search PORT_HEADER_RE line).

Definition closed (cur : option (str * list str)) : list (str * list str) :=
  match cur with
  | Some sec => [sec]
  | None => []
  end.

Definition extend (line : str) (cur : option (str * list str))
  : option (str * list str) :=
  option_map (fun sec => (fst sec, snd sec ++ [line])) cur.

(** The port sections of a list of raw lines, in the order of the text:
    the port of each port header, with the stripped, non-empty lines that
    follow it up to the next port header.  [cur] is the section being read;
    the lines before the first port header belong to no section. *)
Fixpoint sections_from (cur : option (str * list str)) (lines : list str)
  : list (str * list str) :=
  match lines with
  | [] => closed cur
  | raw :: rest =>
      match strip raw with
      | [] => sections_from cur rest
      | line =>
          match port_of line with
          | Some port => closed cur ++ sections_from (Some (port, [])) rest
          | None => sections_from (extend line cur) rest
          end
      end
  end.

Definition port_sections (text_content : str) : list (str * list str) :=
  sections_from None (splitlines text_content).

(** The state in which a port header leaves the parser, its records set
    aside. *)
Definition open_port (port : str) : pstate :=
  {| all_ont_data := []; current_port := Some port; parsing_state := None;
     port_data_table1 := []; port_data_table2 := [] |}.

(** The state at the end of a section: every line of the section has gone
    through [section_line], starting from empty accumulators. *)
Definition section_state (sec : str * list str) : pstate :=
  fold_left section_line (snd sec) (open_port (fst sec)).

Definition section_table1 (sec : str * list str) : dict t1_data :=
  port_data_table1 (section_state sec).

Definition section_table2 (sec : str * list str) : dict t2_data :=
  port_data_table2 (section_state sec).

Definition section_records (olt_name pop : str) (sec : str * list str)
  : result (list record) :=
  combine_port olt_name pop (fst sec) (section_table1 sec) (section_table2 sec).

Definition with_records (a : list record) (st : pstate) : pstate :=
  {| all_ont_data := a; current_port := current_port st;
     parsing_state := parsing_state st;
     port_data_table1 := port_data_table1 st;
     port_data_table2 := port_data_table2 st |}.

(** The parser state [st] is the one of the section being read. *)
Definition agrees (st : pstate) (cur : option (str * list str)) : Prop :=
  match cur with
  | Some sec => st = with_records (all_ont_data st) (section_state sec)
  | None => current_port st = None
  end.

(** ** One record for each entry of the Table-1 accumulator *)

(** The Table-2 part of a record: the fields of the Table-2 entry of the
    device, or the marker [N/A] in each of them when there is none. *)
Definition table2_fields (t2 : option t2_data) (r : record) : Prop :=
  match t2 with
  | Some d =>
      SN r = t2_SN d /\ Type_ r = t2_Type d /\ Distance_m r = t2_Distance d
      /\ RxTx_power r = t2_Power d /\ Description r = t2_Description d
  | None =>
      SN r = NA /\ Type_ r = NA /\ Distance_m r = NA
      /\ RxTx_power r = NA /\ Description r = NA
  end.

(** The Table-1 part of a record: the device id as a number, the run
    state, the two timestamps split into date and time, the down-cause. *)
Definition table1_fields (item : str * t1_data) (r : record) : Prop :=
  py_int (fst item) = Ok (ONT_ID r)
  /\ Run_State r = t1_Run_State (snd item)
  /\ split_datetime (t1_UpDateTime (snd item))
     = Ok (Last_UpDate r, Last_UpTime r)
  /\ split_datetime (t1_DownDateTime (snd item))
     = Ok (Last_DownDate r, Last_DownTime r)
  /\ Last_DownCause r = t1_DownCause (snd item).

(** [r] is the record of the entry [item] of the Table-1 accumulator of
    the section [sec], joined with the Table-2 accumulator of [sec] under
    the same key. *)
Definition record_of (olt_name : str) (sec : str * list str)
           (item : str * t1_data) (r : record) : Prop :=
  OLT_Name r = olt_name /\ PON_Port r = fst sec /\ PoP r = pop_name olt_name
  /\ table1_fields item r
  /\ table2_fields (dict_get (fst item) (section_table2 sec)) r.

(** A Table-2 row under an id that Table 1 does not have: no record. *)
Definition report_table2_only : str :=
  unlines [ port_header_0_1_0; table1_header;
            "1 online 2023-01-01 10:00:00 - -"%string;
            table2_header;
            "9 ABCDEF0123456789 1112 120 -25.3/2.1 Customer B"%string ].

(** ** When the parser raises *)

(** A line that no rule recognises: not a port header, not a table header,
    and a data line of neither table. *)
Definition unrecognised (line : str) : Prop :=
  search PORT_HEADER_RE line = None
  /\ search TABLE1_HEADER_RE line = None
  /\ search TABLE2_HEADER_RE line = None
  /\ match_ TABLE1_DATA_RE line = None
  /\ match_ TABLE2_DATA_RE line = None.

(** ** Timestamps *)

Definition entry_up_only : str * t1_data :=
  (s_ "7", {| t1_Run_State := s_ "online";
              t1_UpDateTime := s_ "2023-08-15 09:30:00";
              t1_DownDateTime := s_ "-";
              t1_DownCause := s_ "-" |}).

Definition record_up_only : record :=
  {| OLT_Name := s_ "OLT"; PON_Port := s_ "0/1/0"; ONT_ID := 7;
     Run_State := s_ "online";
     Last_UpDate := s_ "2023-08-15"; Last_UpTime := s_ "09:30:00";
     Last_DownDate := s_ "-"; Last_DownTime := s_ "-";
     Last_DownCause := s_ "-";
     SN := NA; Type_ := NA; Distance_m := NA; RxTx_power := NA;
     Description := NA; PoP := s_ "PoP" |}.

(** ** The PoP name *)

(** The derivation as the specification words it, with the label of the
    fall-back cases as a parameter: fewer than three segments give the
    label; otherwise the last segment when it ends with NOC1 in any case
    of the letters, the last segment when it has five characters or more,
    the last two segments joined by a hyphen when there are four or more,
    and the label in the remaining case. *)
Definition lower_letter (c : ascii) : ascii :=
  if in_range 65 90 c then ascii_of_N (code c + 32) else c.

Definition ends_with_ci (suffix s : str) : bool :=
  (length suffix <=? length s)
  && str_eqb (map lower_letter (skipn (length s - length suffix) s))
             (map lower_letter suffix).

Definition site_group (unknown : str) (source_id : str) : str :=
  let segments := split_on "-" source_id in
  let last_segment := last segments [] in
  if length segments <? 3 then unknown
  else if ends_with_ci (s_ "NOC1") last_segment then last_segment
  else if 5 <=? length last_segment then last_segment
  else if 4 <=? length segments then
    nth (length segments - 2) segments [] ++ s_ "-" ++ last_segment
  else unknown.

(** ** The order of the records *)

(** The entry that a match of the Table-1 data pattern stores. *)
Definition table1_row_of (m : caps) : str * t1_data :=
  (group 1 m,
   {| t1_Run_State := group 2 m;
      t1_UpDateTime := group 3 m;
      t1_DownDateTime := group 4 m;
      t1_DownCause := group 5 m |}).

(** The Table-1 row that a line of a section is, when the parser in state
    [st] takes it as one: no table header, no separator, the parser is in
    Table 1 and the line matches the Table-1 data pattern. *)
Definition table1_row (st : pstate) (line : str) : option (str * t1_data) :=
  match search TABLE1_HEADER_RE line, search TABLE2_HEADER_RE line with
  | None, None =>
      if startswith (s_ "---") line then None
      else match parsing_state st with
           | Some table1 =>
               option_map table1_row_of (match_ TABLE1_DATA_RE line)
           | _ => None
           end
  | _, _ => None
  end.

Definition opt_list (A : Type) (o : option A) : list A :=
  match o with
  | Some a => [a]
  | None => []
  end.

(** The Table-1 rows of the lines [body], in the order of the lines, for a
    parser that starts in state [st]. *)
Fixpoint table1_rows_from (st : pstate) (body : list str)
  : list (str * t1_data) :=
  match body with
  | [] => []
  | line :: rest =>
      opt_list (table1_row st line)
      ++ table1_rows_from (section_line st line) rest
  end.

Definition table1_rows (sec : str * list str) : list (str * t1_data) :=
  table1_rows_from (open_port (fst sec)) (snd sec).

Definition mem (k : str) (ks : list str) : bool := existsb (str_eqb k) ks.

(** The distinct ids of a sequence of ids, each at the place where it
    occurs first. *)
Definition first_occurrences (ks : list str) : list str :=
  fold_left (fun seen k => if mem k seen then seen else seen ++ [k]) ks [].

(** The value of the last row with id [k]. *)
Fixpoint last_value (k : str) (rows : list (str * t1_data))
  : option t1_data :=
  match rows with
  | [] => None
  | (k', v) :: rest =>
      match last_value k rest with
      | Some v' => Some v'
      | None => if str_eqb k k' then Some v else None
      end
  end.

Definition store_row (d : dict t1_data) (row : str * t1_data) : dict t1_data :=
  dict_set (fst row) (snd row) d.

(** Two ports, the first with the ids 2, 1, 2 in this order. *)
Definition report_two_ports : str :=
  unlines [ "In port 0/1/1, the total of ONTs are: 2, online: 1"%string;
            table1_header;
            "2 online 2023-01-01 10:00:00 - -"%string;
            "1 online 2023-01-02 10:00:00 - -"%string;
            "2 offline - 2023-01-03 10:00:00 LOS"%string;
            "In port 0/1/0, the total of ONTs are: 1, online: 1"%string;
            table1_header;
            "5 online 2023-01-04 10:00:00 - -"%string ].

(** ** The device id as a key *)

(** A Table-1 row under the id 01 and a Table-2 row under the id 1. *)
Definition report_id_01_and_1 : str :=
  unlines [ port_header_0_1_0; table1_header;
            "01 online 2023-01-01 10:00:00 - -"%string;
            table2_header;
            "1 ABCDEF0123456789 1112 120 -25.3/2.1 Customer A"%string ].

(** Two Table-1 rows, under the ids 1 and 01. *)
Definition report_ids_1_and_01 : str :=
  unlines [ port_header_0_1_0; table1_header;
            "1 online 2023-01-01 10:00:00 - -"%string;
            "01 offline - 2023-01-02 11:00:00 LOS"%string ].

Definition entry_01 : str * t1_data :=
  (s_ "01", {| t1_Run_State := s_ "online";
               t1_UpDateTime := s_ "-";
               t1_DownDateTime := s_ "-";
               t1_DownCause := s_ "-" |}).

Definition table2_with_1 : dict t2_data :=
  [(s_ "1", {| t2_SN := s_ "ABCDEF0123456789"; t2_Type := s_ "GP1702-4G";
               t2_Distance := s_ "120"; t2_Power := s_ "-25.3/2.1";
               t2_Description := s_ "Customer A" |})].

Definition record_01 : record :=
  {| OLT_Name := s_ "OLT"; PON_Port := s_ "0/1/0"; ONT_ID := 1;
     Run_State := s_ "online";
     Last_UpDate := s_ "-"; Last_UpTime := s_ "-";
     Last_DownDate := s_ "-"; Last_DownTime := s_ "-";
     Last_DownCause := s_ "-";
     SN := NA; Type_ := NA; Distance_m := NA; RxTx_power := NA;
     Description := NA; PoP := s_ "PoP" |}.

(** ** The accumulators live as long as the port section *)

(** One port with two Table-1 blocks and two Table-2 blocks. *)
Definition report_repeated_tables : str :=
  unlines [ "In port 0/2/3, the total of ONTs are: 2, online: 2"%string;
            table1_header;
            "1 online 2023-01-01 10:00:00 - -"%string;
            table2_header;
            "2 0123456789ABCDEF 5806G 35 -20.1/2.0 Second"%string;
            table1_header;
            "2 online 2023-01-02 10:00:00 - -"%string;
            table2_header;
            "1 ABCDEF0123456789 1112 120 -25.3/2.1 First"%string ].

(** A parser inside port 0/1/0, in Table 1, with one row stored. *)
Definition state_with_one_row : pstate :=
  store_table1 [(5, s_ "-"); (4, s_ "-"); (3, s_ "-");
                (2, s_ "online"); (1, s_ "1")]
               (set_state table1 (open_port (s_ "0/1/0"))).

(** ** The parser on the lines of a text *)

(** [parse_olt_output] from [lines = text_content.splitlines()] on: the
    loop over the lines and the flush of the last port. *)
Definition parse_lines (olt_name : str) (lines : list str)
  : result (list record) :=
  let pop := pop_name olt_name in
  st <- loop olt_name pop initial lines ;;
  recs <- flush olt_name pop st ;;
  Ok (all_ont_data st ++ recs).

Definition matches (o : option caps) : bool :=
  match o with
  | Some _ => true
  | None => false
  end.

(** A raw line that opens a port. *)
Definition is_port_header (raw : str) : bool :=
  matches (search PORT_HEADER_RE (strip raw)).

(** A raw line that the loop passes over whatever its state: a blank line,
    or a separator line that is neither a port header nor a table header. *)
Definition passed_over (raw : str) : bool :=
  match strip raw with
  | [] => true
  | line =>
      negb (matches (search PORT_HEADER_RE line))
      && negb (matches (search TABLE1_HEADER_RE line))
      && negb (matches (search TABLE2_HEADER_RE line))
      && startswith (s_ "---") line
  end.

(** The record [r] as the same report gives it under another OLT name. *)
Definition retag (olt_name : str) (r : record) : record :=
  {| OLT_Name := olt_name;
     PON_Port := PON_Port r;
     ONT_ID := ONT_ID r;
     Run_State := Run_State r;
     Last_UpDate := Last_UpDate r;
     Last_UpTime := Last_UpTime r;
     Last_DownDate := Last_DownDate r;
     Last_DownTime := Last_DownTime r;
     Last_DownCause := Last_DownCause r;
     SN := SN r;
     Type_ := Type_ r;
     Distance_m := Distance_m r;
     RxTx_power := RxTx_power r;
     Description := Description r;
     PoP := pop_name olt_name |}.

(** ** Counting lines *)

(** The lines that the sections of a text use up: one per port header and
    one per line of a body. *)
Definition lines_used (secs : list (str * list str)) : nat :=
  list_sum (map (fun sec => S (length (snd sec))) secs).

(** ** The shape of the fields of a record *)


(** A non-empty text without whitespace. *)
Definition token (s : str) : Prop :=
  s <> [] /\ forallb nonspace s = true.

(** The date and the time that a timestamp of Table 1 splits into: two
    dashes, or ten characters and eight characters. *)
Definition date_and_time (date time : str) : Prop :=
  (date = dash /\ time = dash)
  \/ (length date = 10 /\ forallb (either isdecimal (is_ "-")) date = true
      /\ length time = 8 /\ forallb (either isdecimal (is_ ":")) time = true).

(** What the flush can find in the Table-1 part of a record. *)
Definition table1_part (r : record) : Prop :=
  (0 <= ONT_ID r)%Z
  /\ (Run_State r = s_ "online" \/ Run_State r = s_ "offline")
  /\ date_and_time (Last_UpDate r) (Last_UpTime r)
  /\ date_and_time (Last_DownDate r) (Last_DownTime r)
  /\ token (Last_DownCause r).

(** An entry of the Table-1 accumulator as the Table-1 pattern fills it. *)
Definition table1_entry (item : str * t1_data) : Prop :=
  wf_t1 item
  /\ (t1_Run_State (snd item) = s_ "online"
      \/ t1_Run_State (snd item) = s_ "offline")
  /\ token (t1_DownCause (snd item)).

(** A serial number: a dash or sixteen hexadecimal digits. *)
Definition serial_text (s : str) : Prop :=
  s = dash \/ (length s = 16 /\ forallb ishex s = true).

(** A distance: a dash or a non-empty run of decimal digits. *)
Definition distance_text (s : str) : Prop :=
  s = dash \/ decimal_text s.

(** A power reading: a token with a slash in it. *)
Definition power_text (s : str) : Prop :=
  token s /\ In "/"%char s.

(** An entry of the Table-2 accumulator as the Table-2 pattern and the
    remap of the type fill it. *)
Definition table2_entry (item : str * t2_data) : Prop :=
  decimal_text (fst item)
  /\ serial_text (t2_SN (snd item))
  /\ (exists ont_type, token ont_type
                       /\ t2_Type (snd item) = map_type ont_type)
  /\ distance_text (t2_Distance (snd item))
  /\ power_text (t2_Power (snd item)).

(** What the flush can find in the Table-2 part of a record: the marker
    [N/A] in all five fields, or the fields of a Table-2 entry. *)
Definition table2_part (r : record) : Prop :=
  (SN r = NA /\ Type_ r = NA /\ Distance_m r = NA /\ RxTx_power r = NA
   /\ Description r = NA)
  \/ (serial_text (SN r)
      /\ (exists ont_type, token ont_type /\ Type_ r = map_type ont_type)
      /\ distance_text (Distance_m r)
      /\ power_text (RxTx_power r)).

(** What a call has returned; the empty list stands for a call that
    raised. *)
Definition returned (A : Type) (r : result (list A)) : list A :=
  match r with
  | Ok out => out
  | Raise _ => []
  end.

(** ** The loop over the uploaded files *)

(** [s.rfind(c)] for a one-character [c]: the index of the last [c] in
    [s], or -1.  [i] is the index of the head of [s]. *)
Fixpoint rfind_from (c : ascii) (i : Z) (s : str) : Z :=
  match s with
  | [] => (-1)%Z
  | x :: s' =>
      let r := rfind_from c (i + 1) s' in
      if (0 <=? r)%Z then r
      else if Ascii.eqb x c then i else (-1)%Z
  end.

Definition rfind (c : ascii) (s : str) : Z := rfind_from c 0 s.

(** [os.path.splitext(p)] of the POSIX flavour of [os.path]: the extension
    starts at the last dot, when that dot comes after the last slash and
    some character between the two is not a dot. *)
Definition splitext (p : str) : str * str :=
  let sepIndex := rfind "/" p in
  let dotIndex := rfind "." p in
  if (sepIndex <? dotIndex)%Z
     && existsb (fun c => negb (Ascii.eqb c "."))
                (firstn (Z.to_nat (dotIndex - (sepIndex + 1)))
                        (skipn (Z.to_nat (sepIndex + 1)) p))
  then (firstn (Z.to_nat dotIndex) p, skipn (Z.to_nat dotIndex) p)
  else (p, []).

(** An uploaded file: its name and its content once decoded. *)
Record upload := {
  file_name : str;
  file_text : str
}.

(** The messages that the loop leaves on the page, without their wording:
    [st.success], [st.warning] and [st.error].  The status line, which each
    file overwrites, and the progress bar are not kept. *)
Inductive notice :=
| Extracted (name : str) (count : nat)
| No_data (name : str)
| Failed (name : str) (e : exn).

(** The variables that the loop over the files updates, and the messages
    it has put on the page. *)
Record batch := {
  master_data_list : list record;
  files_processed : nat;
  files_failed : nat;
  notices : list notice
}.

Definition empty_batch : batch :=
  {| master_data_list := []; files_processed := 0; files_failed := 0;
     notices := [] |}.

(** The body of [for i, file in enumerate(uploaded_files)]: the OLT name
    from the file name, the parse, and the three outcomes (records, no
    record, exception).  [file_text] is the content after
    [decode("utf-8", errors='ignore')]. *)
Definition process_file (total_files : nat) (b : batch) (file : upload)
  : batch :=
  let olt_name := fst (splitext (file_name file)) in
  match parse_olt_output (file_text file) olt_name with
  | Ok [] =>
      {| master_data_list := master_data_list b;
         files_processed := files_processed b;
         files_failed := S (files_failed b);
         notices := notices b ++ [No_data (file_name file)] |}
  | Ok extracted_records =>
      {| master_data_list := master_data_list b ++ extracted_records;
         files_processed := S (files_processed b);
         files_failed := files_failed b;
         notices :=
           notices b
           ++ (if total_files <=? 10
               then [Extracted (file_name file) (length extracted_records)]
               else []) |}
  | Raise e =>
      {| master_data_list := master_data_list b;
         files_processed := files_processed b;
         files_failed := S (files_failed b);
         notices := notices b ++ [Failed (file_name file) e] |}
  end.

Definition process_files (uploaded_files : list upload) : batch :=
  fold_left (process_file (length uploaded_files)) uploaded_files empty_batch.

(** The branch that the statement [if master_data_list: ... elif
    files_processed == 0 and files_failed > 0: ...] takes after the loop:
    the display block, the error that nothing could be extracted, or
    neither.  What the display block does once entered (the conversion of
    the parts of the PON Port to numbers, the sort, the table and the
    export) is not part of the model; the conversion fails on a part that
    does not fit a machine integer, and then no table is shown. *)
Inductive branch := Display_block | No_data_error | No_branch.

Definition display_branch (b : batch) : branch :=
  match master_data_list b with
  | _ :: _ => Display_block
  | [] =>
      if (files_processed b =? 0) && (0 <? files_failed b)
      then No_data_error
      else No_branch
  end.

(** The records of one file, under the OLT name that its file name gives. *)
Definition file_records (file : upload) : result (list record) :=
  parse_olt_output (file_text file) (fst (splitext (file_name file))).

Definition nonempty (A : Type) (l : list A) : bool :=
  match l with
  | [] => false
  | _ => true
  end.

(** What a file adds to the master list: the records that the parser
    returns for it, nothing when the parser raises. *)
Definition contributed (file : upload) : list record :=
  returned (file_records file).

Definition has_records (file : upload) : bool := nonempty (contributed file).

Definition without_records (file : upload) : bool := negb (has_records file).

(** The report of an exception among the messages. *)
Definition is_failure (n : notice) : bool :=
  match n with
  | Failed _ _ => true
  | _ => false
  end.

(** The report that the [except] branch leaves for a file. *)
Definition failure_notice (file : upload) : list notice :=
  match file_records file with
  | Raise e => [Failed (file_name file) e]
  | Ok _ => []
  end.

(** A file of the upload. *)
Definition upload_one_device : upload :=
  {| file_name := s_ "HWGPON2U-01-PNHHQ.txt"; file_text := report_one_device |}.

(** ** Device ids within the limit of [int] *)

(** An item of the Table-1 accumulator whose device id is not longer than
    the limit of [int]. *)
Definition short_id (item : str * t1_data) : Prop :=
  length (fst item) <= int_max_str_digits.

(** A line that, when it matches the Table-1 data pattern, has a device
    id of at most as many digits as [int] takes. *)
Definition id_within_limit (line : str) : Prop :=
  forall m, match_ TABLE1_DATA_RE line = Some m ->
            length (group 1 m) <= int_max_str_digits.

(** A text in which no Table-1 data line has a device id longer than the
    limit of [int]. *)
Definition ids_within_limit (text_content : str) : Prop :=
  forall raw, In raw (splitlines text_content) -> id_within_limit (strip raw).

(** A report whose only device has an id of 4301 digits. *)
Definition report_long_id : str :=
  s_ port_header_0_1_0 ++ [LF] ++ s_ table1_header ++ [LF]
  ++ repeat "1"%char 4301 ++ s_ " online 2023-01-01 10:00:00 - -" ++ [LF].

(** The check of [ids_within_limit], by running the pattern on each
    line. *)
Definition ids_within_limitb (text_content : str) : bool :=
  forallb (fun raw =>
             match match_ TABLE1_DATA_RE (strip raw) with
             | Some m => length (group 1 m) <=? int_max_str_digits
             | None => true
             end)
          (splitlines text_content).

(** The record of [report_one_device] under the name HWGPON2U-01-PNHHQ. *)
Definition record_one_device : record :=
  {| OLT_Name := s_ "HWGPON2U-01-PNHHQ";
     PON_Port := s_ "0/1/0";
     ONT_ID := 1;
     Run_State := s_ "online";
     Last_UpDate := s_ "2023-01-01";
     Last_UpTime := s_ "10:00:00";
     Last_DownDate := s_ "-";
     Last_DownTime := s_ "-";
     Last_DownCause := s_ "-";
     SN := s_ "ABCDEF0123456789";
     Type_ := s_ "GP1702-4G";
     Distance_m := s_ "120";
     RxTx_power := s_ "-25.3/2.1";
     Description := s_ "Customer A";
     PoP := s_ "PNHHQ" |}.

(** What the flush does with an item of the Table-1 accumulator: both
    timestamps unpack into two parts, and [int] converts the device id
    unless the id is longer than its limit, in which case it raises. *)
Definition flush_steps (item : str * t1_data) : Prop :=
  (exists up down : str * str,
      split_datetime (t1_UpDateTime (snd item)) = Ok up
      /\ split_datetime (t1_DownDateTime (snd item)) = Ok down)
  /\ py_int (fst item)
     = if int_max_str_digits <? length (fst item) then Raise ValueError
       else Ok (digits_value 0 (fst item)).

(** ** The Table-1 rows of a section, read off its lines *)

(** The Table-1 rows among the lines [body] of a section, in the order of
    the lines.  [t] is the table that the last table header before the
    lines announced: a Table-1 header line announces Table 1, a Table-2
    header line Table 2, a separator line is passed over, and any other
    line is a row when Table 1 is announced and the line matches the
    Table-1 data pattern. *)
Fixpoint rows_under (t : option table) (body : list str)
  : list (str * t1_data) :=
  match body with
  | [] => []
  | line :: rest =>
      if matches (search TABLE1_HEADER_RE line) then
        rows_under (Some table1) rest
      else if matches (search TABLE2_HEADER_RE line) then
        rows_under (Some table2) rest
      else if startswith (s_ "---") line then rows_under t rest
      else
        match t with
        | Some table1 =>
            opt_list (option_map table1_row_of (match_ TABLE1_DATA_RE line))
            ++ rows_under t rest
        | _ => rows_under t rest
        end
  end.

(** The Table-1 rows of a port section: no table is announced when the
    section opens. *)
Definition section_rows (sec : str * list str) : list (str * t1_data) :=
  rows_under None (snd sec).

(** The record at the place of the id [k] in a section: it is on the port
    of the section and carries the Table-1 fields of the last Table-1 row
    of the section with that id. *)
Definition record_for (sec : str * list str) (k : str) (r : record) : Prop :=
  PON_Port r = fst sec
  /\ exists v, last_value k (section_rows sec) = Some v
               /\ table1_fields (k, v) r.


(** A file whose report has a device id beyond the limit of [int]. *)
Definition upload_long_id : upload :=
  {| file_name := s_ "HWGPON2U-02-PNHHQ.txt"; file_text := report_long_id |}.

(* ================================================================== *)
(** * Strings: basic facts *)
(* ================================================================== *)

Lemma str_eqb_refl (a : str) : str_eqb a a = true.
Proof.
  induction a as [|c a IH]; simpl; [reflexivity|].
  now rewrite Ascii.eqb_refl, IH.
Qed.

Lemma str_eqb_eq (a b : str) : str_eqb a b = true <-> a = b.
Proof.
  split; [|intros ->; apply str_eqb_refl].
  revert b; induction a as [|c a IH]; intros [|d b]; simpl; try discriminate; auto.
  rewrite andb_true_iff, Ascii.eqb_eq. intros [-> H]. f_equal. now apply IH.
Qed.

Lemma str_eqb_neq (a b : str) : str_eqb a b = false <-> a <> b.
Proof.
  rewrite <- str_eqb_eq. destruct (str_eqb a b); split; congruence.
Qed.

(* ================================================================== *)
(** * The hardware-type remap *)
(* ================================================================== *)

(** C6.  The remap of the hardware type of a Table-2 row looks at the whole
    token: [1112] becomes [GP1702-4G], [1108] becomes [GP1702-4G-M], and any
    other token is returned as it is; [5806G], for one, stays [5806G]. *)
Theorem map_type_exact :
  forall ont_type : str,
    (ont_type = s_ "1112" -> map_type ont_type = s_ "GP1702-4G")
    /\ (ont_type = s_ "1108" -> map_type ont_type = s_ "GP1702-4G-M")
    /\ (ont_type <> s_ "1112" -> ont_type <> s_ "1108" ->
        map_type ont_type = ont_type).
Proof.
  intros t. repeat split.
  - intros ->. reflexivity.
  - intros ->. reflexivity.
  - intros H1 H2. unfold map_type.
    apply str_eqb_neq in H1, H2. now rewrite H1, H2.
Qed.

Lemma map_type_exact_witness :
  map_type (s_ "1112") = s_ "GP1702-4G"
  /\ map_type (s_ "1108") = s_ "GP1702-4G-M"
  /\ map_type (s_ "5806G") = s_ "5806G".
Proof.
  split; [|split].
  - apply (proj1 (map_type_exact (s_ "1112"))). reflexivity.
  - apply (proj1 (proj2 (map_type_exact (s_ "1108")))). reflexivity.
  - apply (proj2 (proj2 (map_type_exact (s_ "5806G")))); discriminate.
Defined.

(** The remap is applied to group 3 of a Table-2 match and to nothing
    else of the row. *)
Lemma store_table2_type (m : caps) (st : pstate) :
  dict_get (group 1 m) (port_data_table2 (store_table2 m st))
  = Some {| t2_SN := group 2 m;
            t2_Type := map_type (group 3 m);
            t2_Distance := group 4 m;
            t2_Power := group 5 m;
            t2_Description := strip (group 6 m) |}.
Proof.
  unfold store_table2; simpl.
  induction (port_data_table2 st) as [|[k v] d IH]; simpl.
  - now rewrite str_eqb_refl.
  - destruct (str_eqb (group 1 m) k) eqn:E; simpl; rewrite E; auto.
Qed.

(* ================================================================== *)
(** * A report with one device *)
(* ================================================================== *)

(** C2.  The report made of the port header
    [In port 0/1/0, the total of ONTs are: 1, online: 1], a Table-1 header,
    the row [1 online 2023-01-01 10:00:00 - -], a Table-2 header and the
    row [1 ABCDEF0123456789 1112 120 -25.3/2.1 Customer A] parses to exactly
    one record: device id 1, run state [online], up-date [2023-01-01],
    up-time [10:00:00], down-date [-], down-time [-], type [GP1702-4G],
    distance [120], description [Customer A]. *)
Theorem parse_report_one_device :
  forall olt_name : str,
    parse_olt_output report_one_device olt_name
    = Ok [ {| OLT_Name := olt_name;
              PON_Port := s_ "0/1/0";
              ONT_ID := 1;
              Run_State := s_ "online";
              Last_UpDate := s_ "2023-01-01";
              Last_UpTime := s_ "10:00:00";
              Last_DownDate := s_ "-";
              Last_DownTime := s_ "-";
              Last_DownCause := s_ "-";
              SN := s_ "ABCDEF0123456789";
              Type_ := s_ "GP1702-4G";
              Distance_m := s_ "120";
              RxTx_power := s_ "-25.3/2.1";
              Description := s_ "Customer A";
              PoP := pop_name olt_name |} ].
Proof.
  intros olt_name. unfold parse_olt_output.
  generalize (pop_name olt_name); intros pop.
  vm_compute. reflexivity.
Qed.

(* ================================================================== *)
(** * What a match says about the text *)
(* ================================================================== *)

Lemma lit_sound (R : Type) (l : str) :
  forall (s : str) (k : str -> option R) (x : R),
    lit l s k = Some x -> exists s', s = l ++ s' /\ k s' = Some x.
Proof.
  induction l as [|a l IH]; simpl; intros s k x H.
  - now exists s.
  - destruct s as [|c s]; [discriminate|].
    destruct (Ascii.eqb a c) eqn:E; [|discriminate].
    apply Ascii.eqb_eq in E; subst c.
    destruct (IH _ _ _ H) as (s' & -> & Hk). now exists s'.
Qed.

Lemma fits_dec_S (hi : option nat) (n : nat) :
  room hi = true -> fits (dec hi) n -> fits hi (S n).
Proof.
  destruct hi as [[|h]|]; simpl; try discriminate; intros; lia.
Qed.

Lemma rep_sound (R : Type) (p : ascii -> bool) :
  forall (s : str) (lo : nat) (hi : option nat) (k : str -> option R) (x : R),
    rep p lo hi s k = Some x ->
    exists pre s', s = pre ++ s' /\ forallb p pre = true
                   /\ lo <= length pre /\ fits hi (length pre)
                   /\ k s' = Some x.
Proof.
  assert (Hstop : forall (s : str) lo hi (k : str -> option R) x,
             match lo with 0 => k s | S _ => None end = Some x ->
             exists pre s', s = pre ++ s' /\ forallb p pre = true
                            /\ lo <= length pre /\ fits hi (length pre)
                            /\ k s' = Some x).
  { intros s lo hi k x H. destruct lo; [|discriminate].
    exists [], s. simpl. repeat split; auto.
    destruct hi; simpl; lia. }
  induction s as [|c s IH]; intros lo hi k x H; simpl in H.
  - now apply Hstop.
  - destruct (p c && room hi) eqn:E; [|now apply Hstop].
    apply andb_true_iff in E. destruct E as [Hc Hroom].
    destruct (rep p (Nat.pred lo) (dec hi) s k) as [y|] eqn:Hrec;
      [|now apply Hstop].
    injection H as <-.
    destruct (IH _ _ _ _ Hrec) as (pre & s' & -> & Hall & Hlo & Hhi & Hk).
    exists (c :: pre), s'. simpl. rewrite Hc, Hall.
    repeat split; auto; [lia | now apply fits_dec_S].
Qed.

Lemma Sem_suffix (whole : str) (r : regex) :
  forall s s' m m', Sem whole r s s' m m' -> exists pre, s = pre ++ s'.
Proof.
  induction r as [l | p lo hi | r1 IHr1 r2 IHr2 | r1 IHr1 r2 IHr2 | i r IHr | | ];
    simpl; intros s s' m m' H.
  - destruct H as [-> _]. eauto.
  - destruct H as (pre & -> & _). eauto.
  - destruct H as (s1 & m1 & H1 & H2).
    apply IHr1 in H1. apply IHr2 in H2.
    destruct H1 as (p1 & ->), H2 as (p2 & ->).
    exists (p1 ++ p2). now rewrite app_assoc.
  - destruct H as [H|H]; eauto.
  - destruct H as (pre & _ & -> & _). eauto.
  - destruct H as (-> & _). now exists [].
  - destruct H as (-> & _). now exists [].
Qed.

Lemma firstn_consumed (pre s' : str) :
  firstn (length (pre ++ s') - length s') (pre ++ s') = pre.
Proof.
  rewrite length_app, Nat.add_sub.
  rewrite firstn_app, Nat.sub_diag, firstn_all. simpl. apply app_nil_r.
Qed.

(** The matcher is sound: a successful run took a text of the pattern and
    handed the rest to its continuation. *)
Lemma run_sound (R : Type) (whole : str) (r : regex) :
  forall (s : str) (m : caps) (k : str -> caps -> option R) (x : R),
    run whole r s m k = Some x ->
    exists s' m', Sem whole r s s' m m' /\ k s' m' = Some x.
Proof.
  induction r as [l | p lo hi | r1 IHr1 r2 IHr2 | r1 IHr1 r2 IHr2 | i r IHr | | ];
    simpl; intros s m k x H.
  - apply lit_sound in H. destruct H as (s' & -> & Hk). eauto.
  - apply rep_sound in H.
    destruct H as (pre & s' & -> & Hall & Hlo & Hhi & Hk).
    exists s', m. split; [exists pre|]; auto.
  - apply IHr1 in H. destruct H as (s1 & m1 & H1 & H).
    apply IHr2 in H. destruct H as (s' & m' & H2 & Hk).
    exists s', m'. split; [exists s1, m1|]; auto.
  - destruct (run whole r1 s m k) as [y|] eqn:E.
    + injection H as <-. apply IHr1 in E.
      destruct E as (s' & m' & H1 & Hk). eauto.
    + apply IHr2 in H. destruct H as (s' & m' & H2 & Hk). eauto.
  - apply IHr in H. destruct H as (s' & m1 & H1 & Hk).
    destruct (Sem_suffix _ _ _ _ _ _ H1) as (pre & ->).
    rewrite firstn_consumed in Hk.
    exists s', ((i, pre) :: m1). split; [exists pre, m1|]; auto.
  - destruct (Nat.eqb (length s) (length whole)) eqn:E; [|discriminate].
    apply Nat.eqb_eq in E. eauto 6.
  - destruct (at_end s) eqn:E; [|discriminate]. eauto 6.
Qed.

Lemma match_sound (r : regex) (text : str) (m : caps) :
  match_ r text = Some m -> exists rest, Sem text r text rest [] m.
Proof.
  unfold match_. intros H. apply run_sound in H.
  destruct H as (s' & m' & HS & Hk). injection Hk as <-. eauto.
Qed.

(* ================================================================== *)
(** * Whitespace, digits and the string operations *)
(* ================================================================== *)

(** Decide a fact about one character by going through the 256 of them. *)
Ltac by_char c :=
  destruct c as [[] [] [] [] [] [] [] []]; vm_compute; try reflexivity;
  try discriminate; try (intros; discriminate); try (intros; reflexivity);
  auto.

Lemma decimal_not_space (c : ascii) : isdecimal c = true -> isspace c = false.
Proof. by_char c. Qed.

Lemma date_char_not_space (c : ascii) :
  either isdecimal (is_ "-") c = true -> isspace c = false.
Proof. by_char c. Qed.

Lemma time_char_not_space (c : ascii) :
  either isdecimal (is_ ":") c = true -> isspace c = false.
Proof. by_char c. Qed.

Lemma decimal_not_sign (c : ascii) :
  isdecimal c = true -> Ascii.eqb c "-" = false /\ Ascii.eqb c "+" = false.
Proof. by_char c. Qed.

Lemma forallb_weaken (p q : ascii -> bool) (s : str) :
  (forall c, p c = true -> q c = true) ->
  forallb p s = true -> forallb q s = true.
Proof.
  intros Hpq. rewrite !forallb_forall. auto.
Qed.

Lemma dropwhile_head (p : ascii -> bool) (s : str) :
  dropwhile p s = [] \/ exists c t, dropwhile p s = c :: t /\ p c = false.
Proof.
  induction s as [|c s IH]; simpl; auto.
  destruct (p c) eqn:E; eauto.
Qed.

Lemma dropwhile_id (p : ascii -> bool) (c : ascii) (s : str) :
  p c = false -> dropwhile p (c :: s) = c :: s.
Proof. simpl. now intros ->. Qed.

(** A stripped line does not end with whitespace. *)
Lemma strip_last (raw a : str) (c : ascii) :
  strip raw = a ++ [c] -> isspace c = false.
Proof.
  unfold strip, rstrip. intros H.
  apply (f_equal (@rev ascii)) in H.
  rewrite rev_involutive, rev_app_distr in H. simpl in H.
  destruct (dropwhile_head isspace (rev (lstrip raw))) as [E|(d & t & E & Hd)];
    rewrite E in H; [discriminate|]. now injection H as -> _.
Qed.

(** Stripping leaves a text without whitespace as it is. *)
Lemma strip_nonspace (s : str) :
  forallb nonspace s = true -> strip s = s.
Proof.
  intros H. unfold strip, rstrip, lstrip.
  assert (Hl : dropwhile isspace s = s).
  { destruct s as [|c s]; [reflexivity|]. simpl in H.
    apply andb_true_iff in H. destruct H as [Hc _].
    apply dropwhile_id. unfold nonspace in Hc.
    now destruct (isspace c). }
  rewrite Hl.
  assert (Hr : dropwhile isspace (rev s) = rev s).
  { destruct (rev s) as [|c t] eqn:E; [reflexivity|].
    apply dropwhile_id.
    rewrite forallb_forall in H.
    assert (Hin : In c s) by (apply in_rev; rewrite E; now left).
    apply H in Hin. unfold nonspace in Hin. now destruct (isspace c). }
  rewrite Hr. apply rev_involutive.
Qed.

Lemma int_digits_decimal (s : str) :
  forall (acc : Z) (prev : bool),
    forallb isdecimal s = true -> (s <> [] \/ prev = true) ->
    int_digits acc prev s = Ok (digits_value acc s).
Proof.
  induction s as [|c s IH]; simpl; intros acc prev Hall Hne.
  - destruct Hne as [Hne| ->]; [congruence|reflexivity].
  - apply andb_true_iff in Hall. destruct Hall as [Hc Hall].
    rewrite Hc. apply IH; auto.
Qed.

Lemma digit_count_decimal (s : str) :
  forallb isdecimal s = true -> digit_count s = length s.
Proof.
  unfold digit_count. induction s as [|c s IH]; cbn [forallb filter length];
    [reflexivity|].
  rewrite andb_true_iff. intros [Hc Hs]. rewrite Hc. cbn [length].
  now rewrite IH.
Qed.

(** On a non-empty text of decimal digits [int] is decided by the number
    of digits alone. *)
Lemma py_int_decimal_cases (s : str) :
  s <> [] -> forallb isdecimal s = true ->
  py_int s = if int_max_str_digits <? length s then Raise ValueError
             else Ok (digits_value 0 s).
Proof.
  intros Hne Hall. unfold py_int.
  rewrite strip_nonspace.
  2:{ apply forallb_weaken with (p := isdecimal); auto.
      intros c Hc. unfold nonspace. now rewrite decimal_not_space. }
  destruct s as [|c t]; [congruence|].
  rewrite (digit_count_decimal (c :: t) Hall).
  destruct (int_max_str_digits <? length (c :: t)); [reflexivity|].
  pose proof Hall as Hall'. cbn [forallb] in Hall'.
  apply andb_true_iff in Hall'. destruct Hall' as [Hc _].
  destruct (decimal_not_sign c Hc) as [-> ->].
  apply int_digits_decimal; [assumption|left; discriminate].
Qed.

(** [int] succeeds on a non-empty text of decimal digits that is not
    longer than the limit. *)
Lemma py_int_decimal (s : str) :
  s <> [] -> forallb isdecimal s = true ->
  length s <= int_max_str_digits ->
  py_int s = Ok (digits_value 0 s).
Proof.
  intros Hne Hall Hlen. rewrite py_int_decimal_cases by assumption.
  apply Nat.ltb_ge in Hlen. now rewrite Hlen.
Qed.

(** When [int] succeeds on a text of decimal digits, the text is within
    the limit and the result is the number it denotes. *)
Lemma py_int_decimal_ok (s : str) (n : Z) :
  s <> [] -> forallb isdecimal s = true ->
  py_int s = Ok n ->
  length s <= int_max_str_digits /\ n = digits_value 0 s.
Proof.
  intros Hne Hall H. rewrite py_int_decimal_cases in H by assumption.
  destruct (int_max_str_digits <? length s) eqn:E; [discriminate|].
  apply Nat.ltb_ge in E. injection H as <-. now split.
Qed.

Lemma split_ws_run (a : str) :
  forall cur rest,
    forallb nonspace a = true ->
    split_ws_from cur (a ++ rest) = split_ws_from (cur ++ a) rest.
Proof.
  induction a as [|c a IH]; simpl; intros cur rest H.
  - now rewrite app_nil_r.
  - apply andb_true_iff in H. destruct H as [Hc H].
    unfold nonspace in Hc. destruct (isspace c); [discriminate|].
    rewrite IH by assumption. now rewrite <- app_assoc.
Qed.

(** Two runs without whitespace around one whitespace character split
    into exactly these two runs. *)
Lemma split_ws_two (d t : str) (w : ascii) :
  d <> [] -> t <> [] ->
  forallb nonspace d = true -> isspace w = true ->
  forallb nonspace t = true ->
  split_ws (d ++ [w] ++ t) = [d; t].
Proof.
  intros Hd Ht Hnd Hw Hnt. unfold split_ws.
  rewrite split_ws_run by assumption. simpl. rewrite Hw.
  destruct d as [|c d]; [congruence|].
  rewrite <- (app_nil_r t) at 1.
  rewrite split_ws_run by assumption. simpl.
  destruct t; [congruence|reflexivity].
Qed.

(* ================================================================== *)
(** * What the data patterns capture *)
(* ================================================================== *)

Lemma Sem_plus_decimal (whole s s' : str) (m m' : caps) :
  Sem whole (plus isdecimal) s s' m m' ->
  m' = m /\ exists g, s = g ++ s' /\ decimal_text g.
Proof.
  intros (pre & -> & Hall & Hlo & _ & ->). split; [reflexivity|].
  exists pre. repeat split; auto. destruct pre; simpl in Hlo; [lia|discriminate].
Qed.

Lemma Sem_datetime (whole s s' : str) (m m' : caps) :
  Sem whole datetime_or_dash s s' m m' ->
  m' = m /\ exists v, s = v ++ s' /\ stored_datetime v.
Proof.
  intros [H|H].
  - destruct H as (s1 & m1 & (d & -> & Hd & Hd10 & Hd10' & ->) & H).
    destruct H as (s2 & m2 & (w & -> & Hw & Hw1 & Hw1' & ->) & H).
    destruct H as (t & -> & Ht & Ht8 & Ht8' & ->).
    split; [reflexivity|]. simpl in Hd10', Hw1', Ht8'.
    destruct w as [|c [|? ?]]; simpl in Hw1, Hw1'; try lia.
    simpl in Hw. rewrite andb_true_r in Hw.
    exists (d ++ [c] ++ t). split; [now rewrite <- !app_assoc|].
    right. exists d, c, t. repeat split; auto; lia.
  - destruct H as [-> ->]. split; [reflexivity|].
    exists dash. split; [reflexivity|now left].
Qed.

(** A match of the Table-1 data pattern: group 1 is a decimal text, group 2
    one of the two run states, groups 3 and 4 are timestamps or dashes. *)
Lemma table1_match_shape (line : str) (m : caps) :
  match_ TABLE1_DATA_RE line = Some m ->
  decimal_text (group 1 m)
  /\ (group 2 m = s_ "online" \/ group 2 m = s_ "offline")
  /\ stored_datetime (group 3 m)
  /\ stored_datetime (group 4 m).
Proof.
  intros H. apply match_sound in H. destruct H as (rest & H).
  unfold TABLE1_DATA_RE in H.
  destruct H as (s0 & m0 & (-> & -> & _) & H).
  destruct H as (s1 & m1 & (w0 & -> & _ & _ & _ & ->) & H).
  destruct H as (s2 & m2 & (g1 & m1' & E1 & H1 & ->) & H).
  apply Sem_plus_decimal in H1. destruct H1 as (-> & g1' & E1' & Hg1).
  rewrite E1' in E1. apply app_inv_tail in E1. subst g1'.
  destruct H as (s3 & m3 & (w1 & -> & _ & _ & _ & ->) & H).
  destruct H as (s4 & m4 & (g2 & m3' & E2 & H2 & ->) & H).
  assert (Hg2 : (g2 = s_ "online" \/ g2 = s_ "offline") /\ m3' = [(1, g1)]).
  { destruct H2 as [[E ->]|[E ->]]; rewrite E in E2;
      apply app_inv_tail in E2; subst g2; auto. }
  destruct Hg2 as [Hg2 ->].
  destruct H as (s5 & m5 & (w2 & -> & _ & _ & _ & ->) & H).
  destruct H as (s6 & m6 & (g3 & m5' & E3 & H3 & ->) & H).
  apply Sem_datetime in H3. destruct H3 as (-> & g3' & E3' & Hg3).
  rewrite E3' in E3. apply app_inv_tail in E3. subst g3'.
  destruct H as (s7 & m7 & (w3 & -> & _ & _ & _ & ->) & H).
  destruct H as (s8 & m8 & (g4 & m7' & E4 & H4 & ->) & H).
  apply Sem_datetime in H4. destruct H4 as (-> & g4' & E4' & Hg4).
  rewrite E4' in E4. apply app_inv_tail in E4. subst g4'.
  destruct H as (s9 & m9 & (w4 & -> & _ & _ & _ & ->) & H).
  destruct H as (s10 & m10 & (g5 & m9' & E5 & H5 & ->) & H).
  assert (Hm9 : m9' = [(4, g4); (3, g3); (2, g2); (1, g1)]).
  { destruct H5 as [(? & _ & _ & _ & _ & ->)|[_ ->]]; reflexivity. }
  subst m9'.
  destruct H as (s11 & m11 & (w5 & -> & _ & _ & _ & ->) & H).
  destruct H as (-> & -> & _).
  unfold group; simpl. auto.
Qed.

(* ================================================================== *)
(** * The partial operations of the flush *)
(* ================================================================== *)

Lemma split_datetime_dash : split_datetime dash = Ok (dash, dash).
Proof. reflexivity. Qed.

(** A stored timestamp splits into its date and its time. *)
Lemma split_datetime_shape (d t : str) (w : ascii) :
  length d = 10 -> forallb (either isdecimal (is_ "-")) d = true ->
  isspace w = true ->
  length t = 8 -> forallb (either isdecimal (is_ ":")) t = true ->
  split_datetime (d ++ [w] ++ t) = Ok (d, t).
Proof.
  intros Hd Hdc Hw Ht Htc. unfold split_datetime.
  assert (Hne : str_eqb (d ++ [w] ++ t) dash = false).
  { apply str_eqb_neq. intros E. apply (f_equal (@length ascii)) in E.
    rewrite !length_app in E. simpl in E. lia. }
  rewrite Hne. simpl negb. cbv iota.
  rewrite split_ws_two; auto.
  - intros ->. discriminate.
  - intros ->. discriminate.
  - apply forallb_weaken with (p := either isdecimal (is_ "-")); auto.
    intros c Hc. unfold nonspace. now rewrite date_char_not_space.
  - apply forallb_weaken with (p := either isdecimal (is_ ":")); auto.
    intros c Hc. unfold nonspace. now rewrite time_char_not_space.
Qed.

Lemma split_datetime_stored (v : str) :
  stored_datetime v -> exists a b, split_datetime v = Ok (a, b).
Proof.
  intros [->|(d & w & t & -> & Hd & Hdc & Hw & Ht & Htc)].
  - exists dash, dash. reflexivity.
  - exists d, t. now apply split_datetime_shape.
Qed.

Lemma make_record_ok (olt_name pop port : str) (tab2 : dict t2_data)
      (item : str * t1_data) :
  wf_t1 item -> short_id item ->
  exists r, make_record olt_name pop port tab2 item = Ok r.
Proof.
  destruct item as [k d]. intros ((Hne & Hdec) & Hup & Hdown) Hshort.
  unfold short_id in Hshort. simpl in *.
  unfold make_record. rewrite py_int_decimal by assumption. simpl.
  destruct (split_datetime_stored Hup) as (a & b & ->).
  destruct (split_datetime_stored Hdown) as (a' & b' & ->).
  simpl. eauto.
Qed.

Lemma mapM_ok (A B : Type) (f : A -> result B) (l : list A) :
  Forall (fun a => exists b, f a = Ok b) l -> exists bs, mapM f l = Ok bs.
Proof.
  induction 1 as [|a l (b & Hb) _ (bs & Hbs)]; simpl.
  - eauto.
  - rewrite Hb; simpl. rewrite Hbs; simpl. eauto.
Qed.

Lemma mapM_Forall2 (A B : Type) (f : A -> result B) (l : list A) :
  forall bs, mapM f l = Ok bs -> Forall2 (fun a b => f a = Ok b) l bs.
Proof.
  induction l as [|a l IH]; simpl; intros bs H.
  - injection H as <-. constructor.
  - destruct (f a) as [b|] eqn:Hb; simpl in H; [|discriminate].
    destruct (mapM f l) as [bs'|]; simpl in H; [|discriminate].
    injection H as <-. constructor; auto.
Qed.

Lemma combine_port_ok (olt_name pop port : str)
      (tab1 : dict t1_data) (tab2 : dict t2_data) :
  Forall wf_t1 tab1 -> Forall short_id tab1 ->
  exists recs, combine_port olt_name pop port tab1 tab2 = Ok recs.
Proof.
  intros Hwf Hshort. apply mapM_ok.
  rewrite Forall_forall in *. intros item Hin.
  apply make_record_ok; auto.
Qed.

(* ================================================================== *)
(** * Dictionaries: facts *)
(* ================================================================== *)

Lemma dict_set_Forall (V : Type) (P : str * V -> Prop) (k : str) (v : V)
      (d : dict V) :
  P (k, v) -> Forall P d -> Forall P (dict_set k v d).
Proof.
  intros Hkv. induction 1 as [|[k' v'] d Hx Hd IH]; simpl.
  - auto.
  - destruct (str_eqb k k') eqn:E.
    + apply str_eqb_eq in E; subst k'. auto.
    + auto.
Qed.

Lemma dict_get_set_same (V : Type) (k : str) (v : V) (d : dict V) :
  dict_get k (dict_set k v d) = Some v.
Proof.
  induction d as [|[k' v'] d IH]; simpl.
  - now rewrite str_eqb_refl.
  - destruct (str_eqb k k') eqn:E; simpl; now rewrite E.
Qed.

Lemma dict_get_set_other (V : Type) (k k0 : str) (v : V) (d : dict V) :
  k0 <> k -> dict_get k0 (dict_set k v d) = dict_get k0 d.
Proof.
  intros Hne. induction d as [|[k' v'] d IH]; simpl.
  - apply str_eqb_neq in Hne. now rewrite Hne.
  - destruct (str_eqb k k') eqn:E; simpl.
    + apply str_eqb_eq in E; subst k'. apply str_eqb_neq in Hne.
      now rewrite Hne.
    + now rewrite IH.
Qed.

Lemma dict_get_In (V : Type) (k : str) (v : V) (d : dict V) :
  dict_get k d = Some v -> In (k, v) d.
Proof.
  induction d as [|[k' v'] d IH]; simpl; [discriminate|].
  destruct (str_eqb k k') eqn:E.
  - apply str_eqb_eq in E; subst k'. intros [= ->]. now left.
  - auto.
Qed.

Lemma dict_get_None (V : Type) (k : str) (d : dict V) :
  dict_get k d = None <-> ~ In k (keys d).
Proof.
  induction d as [|[k' v'] d IH]; simpl.
  - tauto.
  - destruct (str_eqb k k') eqn:E.
    + apply str_eqb_eq in E; subst k'. split; [discriminate|tauto].
    + apply str_eqb_neq in E. rewrite IH. split.
      * intros H [H'|H']; [congruence|tauto].
      * tauto.
Qed.

(** Assigning to a key that is present leaves every key where it is;
    assigning to a new key puts it last. *)
Lemma keys_dict_set (V : Type) (k : str) (v : V) (d : dict V) :
  keys (dict_set k v d)
  = if in_dec (list_eq_dec ascii_dec) k (keys d) then keys d
    else keys d ++ [k].
Proof.
  induction d as [|[k' v'] d IH]; simpl.
  - reflexivity.
  - destruct (str_eqb k k') eqn:E; simpl.
    + apply str_eqb_eq in E; subst k'.
      destruct (list_eq_dec ascii_dec k k); [|congruence].
      reflexivity.
    + apply str_eqb_neq in E. rewrite IH.
      destruct (list_eq_dec ascii_dec k' k); [congruence|].
      destruct (in_dec (list_eq_dec ascii_dec) k (keys d)); reflexivity.
Qed.

(* ================================================================== *)
(** * Port sections *)
(* ================================================================== *)

Lemma section_line_with_records (a : list record) (st : pstate) (line : str) :
  section_line (with_records a st) line = with_records a (section_line st line).
Proof.
  unfold section_line.
  destruct (search TABLE1_HEADER_RE line); [reflexivity|].
  destruct (search TABLE2_HEADER_RE line); [reflexivity|].
  destruct (startswith (s_ "---") line); [reflexivity|].
  simpl. destruct (parsing_state st) as [[|]|]; [| |reflexivity].
  - destruct (match_ TABLE1_DATA_RE line); reflexivity.
  - destruct (match_ TABLE2_DATA_RE line); reflexivity.
Qed.

(** A line that is not a port header leaves the records and the port. *)
Lemma section_line_frame (st : pstate) (line : str) :
  all_ont_data (section_line st line) = all_ont_data st
  /\ current_port (section_line st line) = current_port st.
Proof.
  unfold section_line.
  destruct (search TABLE1_HEADER_RE line); [now split|].
  destruct (search TABLE2_HEADER_RE line); [now split|].
  destruct (startswith (s_ "---") line); [now split|].
  destruct (parsing_state st) as [[|]|]; [| |now split].
  - destruct (match_ TABLE1_DATA_RE line); now split.
  - destruct (match_ TABLE2_DATA_RE line); now split.
Qed.

Lemma fold_section_line_frame (body : list str) :
  forall st : pstate,
    all_ont_data (fold_left section_line body st) = all_ont_data st
    /\ current_port (fold_left section_line body st) = current_port st.
Proof.
  induction body as [|line body IH]; simpl; intros st; [now split|].
  destruct (IH (section_line st line)) as [-> ->].
  apply section_line_frame.
Qed.

Lemma section_state_frame (sec : str * list str) :
  all_ont_data (section_state sec) = []
  /\ current_port (section_state sec) = Some (fst sec).
Proof.
  unfold section_state.
  destruct (fold_section_line_frame (snd sec) (open_port (fst sec)))
    as [-> ->].
  now split.
Qed.

Lemma section_state_extend (port line : str) (body : list str) :
  section_state (port, body ++ [line])
  = section_line (section_state (port, body)) line.
Proof.
  unfold section_state. simpl. now rewrite fold_left_app.
Qed.

Lemma flush_agrees (olt_name pop : str) (st : pstate)
      (cur : option (str * list str)) :
  agrees st cur ->
  flush olt_name pop st
  = rs <- mapM (section_records olt_name pop) (closed cur) ;; Ok (concat rs).
Proof.
  destruct cur as [sec|]; simpl; intros H.
  - rewrite H. unfold flush, section_records, section_table1, section_table2.
    simpl. destruct (section_state_frame sec) as [_ ->].
    destruct (combine_port _ _ _ _ _) as [recs|e]; simpl; [|reflexivity].
    now rewrite app_nil_r.
  - unfold flush. now rewrite H.
Qed.

Lemma bind_assoc (A B C : Type) (m : result A) (f : A -> result B)
      (g : B -> result C) :
  bind (bind m f) g = bind m (fun a => bind (f a) g).
Proof. destruct m; reflexivity. Qed.

Lemma mapM_app (A B : Type) (f : A -> result B) (l1 l2 : list A) :
  mapM f (l1 ++ l2)
  = bs1 <- mapM f l1 ;; bs2 <- mapM f l2 ;; Ok (bs1 ++ bs2).
Proof.
  induction l1 as [|a l1 IH]; simpl.
  - destruct (mapM f l2); reflexivity.
  - destruct (f a) as [b|]; simpl; [|reflexivity].
    rewrite IH. destruct (mapM f l1); simpl; [|reflexivity].
    destruct (mapM f l2); reflexivity.
Qed.

(** The loop and the final flush produce, after the records already
    there, the records of the sections in their order. *)
Lemma loop_sections (olt_name pop : str) (lines : list str) :
  forall (st : pstate) (cur : option (str * list str)),
    agrees st cur ->
    (st' <- loop olt_name pop st lines ;;
     recs <- flush olt_name pop st' ;;
     Ok (all_ont_data st' ++ recs))
    = (rs <- mapM (section_records olt_name pop) (sections_from cur lines) ;;
       Ok (all_ont_data st ++ concat rs)).
Proof.
  induction lines as [|raw rest IH]; intros st cur Hag.
  - simpl. rewrite (flush_agrees olt_name pop st cur Hag).
    destruct (mapM _ (closed cur)); reflexivity.
  - simpl loop. simpl sections_from. unfold step.
    destruct (strip raw) as [|c line'] eqn:Eline.
    + simpl. now apply IH.
    + unfold port_of.
      destruct (search PORT_HEADER_RE (c :: line')) as [pm|] eqn:Eport;
        simpl option_map; cbv iota.
      * rewrite (flush_agrees olt_name pop st cur Hag).
        rewrite mapM_app.
        destruct (mapM (section_records olt_name pop) (closed cur))
          as [rs0|e]; simpl; [|reflexivity].
        rewrite IH with (cur := Some (group 1 pm, [])) by reflexivity.
        simpl.
        destruct (mapM _ (sections_from _ rest)) as [rs|e]; simpl;
          [|reflexivity].
        now rewrite concat_app, app_assoc.
      * destruct cur as [[port body]|]; simpl in Hag.
        -- assert (Hp : current_port st = Some port).
           { rewrite Hag. simpl.
             now destruct (section_state_frame (port, body)) as [_ ->]. }
           rewrite Hp. simpl.
           rewrite IH with (cur := Some (port, body ++ [c :: line'])).
           ++ now destruct (section_line_frame st (c :: line')) as [-> _].
           ++ simpl. rewrite section_state_extend.
              destruct (section_line_frame st (c :: line')) as [-> _].
              rewrite <- section_line_with_records. now rewrite <- Hag.
        -- rewrite Hag. simpl. now apply IH.
Qed.

(** The records that [parse_olt_output] returns are those of the port
    sections of the text, section after section. *)
Lemma parse_sections (text_content olt_name : str) :
  parse_olt_output text_content olt_name
  = (rs <- mapM (section_records olt_name (pop_name olt_name))
                (port_sections text_content) ;;
     Ok (concat rs)).
Proof.
  unfold parse_olt_output, port_sections.
  now rewrite loop_sections with (cur := None).
Qed.

(** The lines of a section are stripped lines of the text. *)
Lemma sections_body_Forall (P : str -> Prop) (lines : list str) :
  (forall raw, In raw lines -> P (strip raw)) ->
  forall cur,
    Forall (fun sec => Forall P (snd sec)) (closed cur) ->
    Forall (fun sec => Forall P (snd sec)) (sections_from cur lines).
Proof.
  induction lines as [|raw rest IH]; intros H cur Hcur; [exact Hcur|].
  assert (Hrest : forall r, In r rest -> P (strip r))
    by (intros r Hr; apply H; now right).
  assert (Hraw : P (strip raw)) by (apply H; now left).
  cbn [sections_from].
  destruct (strip raw) as [|c line]; [now apply IH|].
  destruct (port_of (c :: line)).
  - apply Forall_app. split; [assumption|].
    apply IH; [assumption|]. repeat constructor.
  - apply IH; [assumption|].
    destruct cur as [[port body]|]; cbn; [|constructor].
    constructor; [|constructor]. cbn.
    apply Forall_app. split.
    + now inversion Hcur.
    + now repeat constructor.
Qed.

Lemma port_sections_body (P : str -> Prop) (text_content : str) :
  (forall raw, In raw (splitlines text_content) -> P (strip raw)) ->
  Forall (fun sec => Forall P (snd sec)) (port_sections text_content).
Proof.
  intros H. apply sections_body_Forall; [assumption|constructor].
Qed.

(* ================================================================== *)
(** * The accumulators hold what the flush can process *)
(* ================================================================== *)

Lemma store_table1_wf (m : caps) (line : str) (st : pstate) :
  match_ TABLE1_DATA_RE line = Some m ->
  Forall wf_t1 (port_data_table1 st) ->
  Forall wf_t1 (port_data_table1 (store_table1 m st)).
Proof.
  intros Hm Hwf. apply table1_match_shape in Hm.
  destruct Hm as (H1 & _ & H3 & H4).
  unfold store_table1; simpl. apply dict_set_Forall; [|assumption].
  exact (conj H1 (conj H3 H4)).
Qed.

Lemma section_line_wf (st : pstate) (line : str) :
  Forall wf_t1 (port_data_table1 st) ->
  Forall wf_t1 (port_data_table1 (section_line st line)).
Proof.
  intros Hwf. unfold section_line.
  destruct (search TABLE1_HEADER_RE line); [assumption|].
  destruct (search TABLE2_HEADER_RE line); [assumption|].
  destruct (startswith (s_ "---") line); [assumption|].
  destruct (parsing_state st) as [[|]|]; [| |assumption].
  - destruct (match_ TABLE1_DATA_RE line) eqn:E; [|assumption].
    now apply store_table1_wf with (line := line).
  - destruct (match_ TABLE2_DATA_RE line); assumption.
Qed.

Lemma section_table1_wf (sec : str * list str) :
  Forall wf_t1 (section_table1 sec).
Proof.
  unfold section_table1, section_state.
  assert (H : Forall wf_t1 (port_data_table1 (open_port (fst sec))))
    by constructor.
  revert H. generalize (open_port (fst sec)).
  induction (snd sec) as [|line body IH]; simpl; intros st H; [assumption|].
  apply IH. now apply section_line_wf.
Qed.

Lemma store_table1_short (m : caps) (line : str) (st : pstate) :
  match_ TABLE1_DATA_RE line = Some m ->
  id_within_limit line ->
  Forall short_id (port_data_table1 st) ->
  Forall short_id (port_data_table1 (store_table1 m st)).
Proof.
  intros Hm Hlim Hs. unfold store_table1; cbn [port_data_table1].
  apply dict_set_Forall; [|assumption]. exact (Hlim m Hm).
Qed.

Lemma section_line_short (st : pstate) (line : str) :
  id_within_limit line ->
  Forall short_id (port_data_table1 st) ->
  Forall short_id (port_data_table1 (section_line st line)).
Proof.
  intros Hlim Hs. unfold section_line.
  destruct (search TABLE1_HEADER_RE line); [assumption|].
  destruct (search TABLE2_HEADER_RE line); [assumption|].
  destruct (startswith (s_ "---") line); [assumption|].
  destruct (parsing_state st) as [[|]|]; [| |assumption].
  - destruct (match_ TABLE1_DATA_RE line) eqn:E; [|assumption].
    now apply store_table1_short with (line := line).
  - destruct (match_ TABLE2_DATA_RE line); assumption.
Qed.

Lemma section_table1_short (sec : str * list str) :
  Forall id_within_limit (snd sec) ->
  Forall short_id (section_table1 sec).
Proof.
  unfold section_table1, section_state.
  assert (H : Forall short_id (port_data_table1 (open_port (fst sec))))
    by constructor.
  revert H. generalize (open_port (fst sec)).
  induction (snd sec) as [|line body IH]; cbn [fold_left]; intros st H Hb;
    [assumption|].
  inversion Hb as [|? ? Hline Hbody]; subst.
  apply IH; [|assumption]. now apply section_line_short.
Qed.

(** The flush of a section returns when the device ids of its lines are
    within the limit of [int]. *)
Lemma section_records_ok (olt_name pop : str) (sec : str * list str) :
  Forall id_within_limit (snd sec) ->
  exists recs, section_records olt_name pop sec = Ok recs.
Proof.
  intros H. apply combine_port_ok.
  - apply section_table1_wf.
  - now apply section_table1_short.
Qed.

(** The parser returns on a text whose device ids are within the limit
    of [int]. *)
Lemma parse_total (text_content olt_name : str) :
  ids_within_limit text_content ->
  exists rs,
    mapM (section_records olt_name (pop_name olt_name))
         (port_sections text_content) = Ok rs
    /\ parse_olt_output text_content olt_name = Ok (concat rs).
Proof.
  intros Hlim. rewrite parse_sections.
  destruct (@mapM_ok _ _ (section_records olt_name (pop_name olt_name))
                     (port_sections text_content)) as (rs & Hrs).
  - generalize (@port_sections_body id_within_limit text_content Hlim).
    apply Forall_impl. intros sec. apply section_records_ok.
  - exists rs. rewrite Hrs. now split.
Qed.

(** When the parser returns, every flush has returned. *)
Lemma parse_ok_sections (text_content olt_name : str) (out : list record) :
  parse_olt_output text_content olt_name = Ok out ->
  exists rs,
    mapM (section_records olt_name (pop_name olt_name))
         (port_sections text_content) = Ok rs
    /\ out = concat rs.
Proof.
  rewrite parse_sections.
  destruct (mapM _ (port_sections text_content)) as [rs|];
    cbn [bind]; [|discriminate].
  intros [= <-]. now exists rs.
Qed.

(* ================================================================== *)
(** * One record for each entry of the Table-1 accumulator *)
(* ================================================================== *)

Lemma make_record_fields (olt_name pop port : str) (tab2 : dict t2_data)
      (item : str * t1_data) (r : record) :
  make_record olt_name pop port tab2 item = Ok r ->
  OLT_Name r = olt_name /\ PON_Port r = port /\ PoP r = pop
  /\ table1_fields item r
  /\ table2_fields (dict_get (fst item) tab2) r.
Proof.
  destruct item as [k d]. unfold make_record, table1_fields. simpl.
  destruct (py_int k) as [n|]; simpl; [|discriminate].
  destruct (split_datetime (t1_UpDateTime d)) as [[a b]|]; simpl;
    [|discriminate].
  destruct (split_datetime (t1_DownDateTime d)) as [[a' b']|]; simpl;
    [|discriminate].
  intros [= <-]. simpl. repeat split.
  destruct (dict_get k tab2); simpl; repeat split.
Qed.

Lemma section_records_fields (olt_name : str) (sec : str * list str)
      (recs : list record) :
  section_records olt_name (pop_name olt_name) sec = Ok recs ->
  Forall2 (record_of olt_name sec) (section_table1 sec) recs.
Proof.
  intros H. apply mapM_Forall2 in H.
  revert H. apply Forall2_impl. intros item r. apply make_record_fields.
Qed.

(** What the parser returns, section by section. *)
Lemma parse_section_records (text_content olt_name : str)
      (out : list record) :
  parse_olt_output text_content olt_name = Ok out ->
  exists rs : list (list record),
    out = concat rs
    /\ Forall2 (fun sec recs =>
                  Forall2 (record_of olt_name sec) (section_table1 sec) recs)
               (port_sections text_content) rs.
Proof.
  intros H. apply parse_ok_sections in H. destruct H as (rs & Hrs & ->).
  exists rs. split; [reflexivity|].
  apply mapM_Forall2 in Hrs. revert Hrs. apply Forall2_impl.
  intros sec recs H. now apply section_records_fields in H.
Qed.

Lemma ids_within_limit_check (text_content : str) :
  ids_within_limitb text_content = true -> ids_within_limit text_content.
Proof.
  unfold ids_within_limitb, ids_within_limit, id_within_limit.
  rewrite forallb_forall. intros H raw Hin m Hm.
  specialize (H raw Hin). rewrite Hm in H. now apply Nat.leb_le.
Qed.

(** C1.  Whenever the parser returns, what it returns is, port section
    after port section, exactly one record for each entry of the Table-1
    accumulator of the section, in the order of the accumulator.  The
    record carries the run state, the split timestamps and the down-cause
    of its Table-1 entry; its SN, type, distance, power and description are
    those of the Table-2 entry under the same device id, and the marker
    [N/A] when the Table-2 accumulator of the section has no entry under
    that id.  Records come from Table-1 entries only: a Table-2 entry under
    an id that Table 1 does not have yields no record.  The parser returns
    on every text in which no Table-1 data line has a device id longer
    than the limit of [int]. *)
Theorem one_record_per_table1_entry :
  forall text_content olt_name : str,
    (forall out : list record,
        parse_olt_output text_content olt_name = Ok out ->
        exists rs : list (list record),
          out = concat rs
          /\ Forall2 (fun sec recs =>
                        length recs = length (section_table1 sec)
                        /\ Forall2 (record_of olt_name sec)
                                   (section_table1 sec) recs)
                     (port_sections text_content) rs)
    /\ (ids_within_limit text_content ->
        exists out, parse_olt_output text_content olt_name = Ok out).
Proof.
  intros text_content olt_name. split.
  - intros out Hparse.
    destruct (@parse_section_records text_content olt_name out Hparse)
      as (rs & Hout & Hrs).
    exists rs. split; [assumption|].
    revert Hrs. apply Forall2_impl. intros sec recs H.
    split; [|assumption]. symmetry. now apply Forall2_length in H.
  - intros Hlim.
    destruct (@parse_total text_content olt_name Hlim) as (rs & _ & H).
    eauto.
Qed.

Lemma one_record_per_table1_entry_witness :
  (exists rs : list (list record),
      [record_one_device] = concat rs
      /\ Forall2 (fun sec recs =>
                    length recs = length (section_table1 sec)
                    /\ Forall2 (record_of (s_ "HWGPON2U-01-PNHHQ") sec)
                               (section_table1 sec) recs)
                 (port_sections report_one_device) rs)
  /\ exists out,
      parse_olt_output report_one_device (s_ "HWGPON2U-01-PNHHQ") = Ok out.
Proof.
  split.
  - apply (proj1 (one_record_per_table1_entry
                    report_one_device (s_ "HWGPON2U-01-PNHHQ"))).
    vm_compute. reflexivity.
  - apply (proj2 (one_record_per_table1_entry
                    report_one_device (s_ "HWGPON2U-01-PNHHQ"))).
    apply ids_within_limit_check. vm_compute. reflexivity.
Defined.

Example table2_only_row_dropped :
  forall olt_name : str,
    exists r,
      parse_olt_output report_table2_only olt_name = Ok [r]
      /\ ONT_ID r = 1%Z /\ Run_State r = s_ "online"
      /\ (SN r, Type_ r, Distance_m r, RxTx_power r, Description r)
         = (NA, NA, NA, NA, NA).
Proof.
  intros olt_name. unfold parse_olt_output.
  generalize (pop_name olt_name); intros pop.
  eexists. split; [vm_compute; reflexivity|]. now repeat split.
Qed.

(* ================================================================== *)
(** * When the parser raises *)
(* ================================================================== *)

Lemma step_unrecognised (olt_name pop : str) (st : pstate) (raw : str) :
  unrecognised (strip raw) -> step olt_name pop st raw = Ok st.
Proof.
  intros (Hp & H1 & H2 & Hd1 & Hd2). unfold step.
  destruct (strip raw) as [|c line]; [reflexivity|].
  rewrite Hp. destruct (current_port st); [|reflexivity].
  unfold section_line. rewrite H1, H2, Hd1, Hd2.
  destruct (startswith _ _); [reflexivity|].
  now destruct (parsing_state st) as [[|]|].
Qed.

Lemma wf_t1_flush_steps (item : str * t1_data) :
  wf_t1 item -> flush_steps item.
Proof.
  intros ((Hne & Hdec) & Hup & Hdown).
  destruct (split_datetime_stored Hup) as (a & b & Ha).
  destruct (split_datetime_stored Hdown) as (a' & b' & Ha').
  split.
  - exists (a, b), (a', b'). now split.
  - now apply py_int_decimal_cases.
Qed.

(** One item that raises makes the whole traversal raise. *)
Lemma mapM_raise (A B : Type) (f : A -> result B) (l : list A) (a : A) :
  In a l -> f a = Raise ValueError -> mapM f l = Raise ValueError.
Proof.
  intros Hin Ha. induction l as [|a' l IH]; [contradiction|].
  cbn [mapM]. destruct Hin as [->|Hin].
  - now rewrite Ha.
  - destruct (f a') as [b|[]]; cbn [bind]; [|reflexivity].
    now rewrite (IH Hin).
Qed.

(** A flushed entry with an id longer than the limit of [int] makes the
    parser raise. *)
Lemma long_id_raises (text_content olt_name : str)
      (sec : str * list str) (item : str * t1_data) :
  In sec (port_sections text_content) ->
  In item (section_table1 sec) ->
  int_max_str_digits < length (fst item) ->
  parse_olt_output text_content olt_name = Raise ValueError.
Proof.
  intros Hsec Hitem Hlong. rewrite parse_sections.
  rewrite (@mapM_raise _ _ (section_records olt_name (pop_name olt_name))
                       (port_sections text_content) sec Hsec);
    [reflexivity|].
  unfold section_records, combine_port.
  apply (@mapM_raise _ _ _ (section_table1 sec) item Hitem).
  pose proof (section_table1_wf sec) as Hwf.
  rewrite Forall_forall in Hwf. apply Hwf in Hitem.
  destruct Hitem as ((Hne & Hdec) & _).
  destruct item as [k d]. cbn [fst] in *. unfold make_record.
  rewrite py_int_decimal_cases by assumption.
  apply Nat.ltb_lt in Hlong. now rewrite Hlong.
Qed.

(** C5 (as the program behaves).  On every text in which no Table-1 data
    line has a device id longer than the limit of [int] (4300 digits),
    [parse_olt_output] returns a list and raises nothing.  A line that
    matches no classification rule and no data pattern leaves the state of
    the parser, and with it the output, as it was.  On every accumulator
    that is flushed, whatever the text, each timestamp unpacks into two
    parts and the look-ups in the Table-2 accumulator go through [get] with
    a default; the conversion of the device id by [int] is the one step
    that can raise, and it does exactly on an id longer than the limit.
    When the Table-1 accumulator of a port section holds such an id, the
    parser raises [ValueError]. *)
Theorem parse_raises_only_on_long_id :
  forall text_content olt_name : str,
    (ids_within_limit text_content ->
     exists out, parse_olt_output text_content olt_name = Ok out)
    /\ (forall (st : pstate) (raw : str),
           unrecognised (strip raw) ->
           step olt_name (pop_name olt_name) st raw = Ok st)
    /\ (forall sec,
           In sec (port_sections text_content) ->
           Forall flush_steps (section_table1 sec))
    /\ (forall sec item,
           In sec (port_sections text_content) ->
           In item (section_table1 sec) ->
           int_max_str_digits < length (fst item) ->
           parse_olt_output text_content olt_name = Raise ValueError).
Proof.
  intros text_content olt_name. split; [|split; [|split]].
  - intros Hlim.
    destruct (@parse_total text_content olt_name Hlim) as (rs & _ & H).
    eauto.
  - intros st raw. apply step_unrecognised.
  - intros sec _. generalize (section_table1_wf sec).
    apply Forall_impl. exact wf_t1_flush_steps.
  - intros sec item. apply long_id_raises.
Qed.

Lemma parse_raises_only_on_long_id_witness :
  (exists out,
      parse_olt_output report_one_device (s_ "OLT-01-PNHHQ") = Ok out)
  /\ step (s_ "OLT-01-PNHHQ") (pop_name (s_ "OLT-01-PNHHQ"))
          (open_port (s_ "0/1/0")) (s_ "  Total: 3 ONTs  ")
     = Ok (open_port (s_ "0/1/0"))
  /\ Forall flush_steps
            (section_table1 (hd ([], []) (port_sections report_one_device)))
  /\ parse_olt_output report_long_id (s_ "OLT-01-PNHHQ") = Raise ValueError.
Proof.
  split; [|split; [|split]].
  - apply (proj1 (parse_raises_only_on_long_id report_one_device
                                               (s_ "OLT-01-PNHHQ"))).
    apply ids_within_limit_check. vm_compute. reflexivity.
  - apply (proj1 (proj2 (parse_raises_only_on_long_id report_one_device
                                                      (s_ "OLT-01-PNHHQ")))).
    vm_compute. repeat split; reflexivity.
  - apply (proj1 (proj2 (proj2 (parse_raises_only_on_long_id
                                  report_one_device (s_ "OLT-01-PNHHQ"))))).
    vm_compute. left. reflexivity.
  - apply (proj2 (proj2 (proj2 (parse_raises_only_on_long_id
                                  report_long_id (s_ "OLT-01-PNHHQ"))))
             (hd ([], []) (port_sections report_long_id))
             (hd ([], {| t1_Run_State := []; t1_UpDateTime := [];
                         t1_DownDateTime := []; t1_DownCause := [] |})
                 (section_table1
                    (hd ([], []) (port_sections report_long_id))))).
    + vm_compute. left. reflexivity.
    + vm_compute. left. reflexivity.
    + apply Nat.ltb_lt. vm_compute. reflexivity.
Defined.

(** A device id of 4301 digits: the flush raises, and the parser with
    it. *)
Lemma parse_raises_on_long_id_counterexample :
  parse_olt_output report_long_id (s_ "OLT-01-PNHHQ") = Raise ValueError.
Proof. vm_compute. reflexivity. Qed.


(* ================================================================== *)
(** * Timestamps *)
(* ================================================================== *)

(** C7.  At the flush each of the two timestamps of a Table-1 entry is
    split on its own.  A stored value is a dash or a date, one whitespace
    character and a time; the latter splits into the date and the time, so
    [2023-08-15 09:30:00] gives [2023-08-15] and [09:30:00], and a dash
    gives a dash for the date and a dash for the time.  The up-date and
    up-time of a record come from the up-timestamp alone and the down-date
    and down-time from the down-timestamp alone. *)
Theorem timestamps_split_independently :
  (forall (line : str) (m : caps),
      match_ TABLE1_DATA_RE line = Some m ->
      stored_datetime (group 3 m) /\ stored_datetime (group 4 m))
  /\ (forall (d t : str) (w : ascii),
         length d = 10 -> forallb (either isdecimal (is_ "-")) d = true ->
         isspace w = true ->
         length t = 8 -> forallb (either isdecimal (is_ ":")) t = true ->
         split_datetime (d ++ [w] ++ t) = Ok (d, t))
  /\ split_datetime (s_ "2023-08-15 09:30:00")
     = Ok (s_ "2023-08-15", s_ "09:30:00")
  /\ split_datetime (s_ "-") = Ok (s_ "-", s_ "-")
  /\ (forall (olt_name pop port : str) (tab2 : dict t2_data)
             (item : str * t1_data) (r : record),
         make_record olt_name pop port tab2 item = Ok r ->
         split_datetime (t1_UpDateTime (snd item))
         = Ok (Last_UpDate r, Last_UpTime r)
         /\ split_datetime (t1_DownDateTime (snd item))
            = Ok (Last_DownDate r, Last_DownTime r)).
Proof.
  split; [|split; [|split; [|split]]].
  - intros line m H. apply table1_match_shape in H. tauto.
  - intros d t w. apply split_datetime_shape.
  - reflexivity.
  - reflexivity.
  - intros olt_name pop port tab2 item r H.
    apply make_record_fields in H.
    destruct H as (_ & _ & _ & (_ & _ & Hup & Hdown & _) & _). now split.
Qed.

Lemma timestamps_split_independently_witness :
  (stored_datetime (s_ "2023-08-15 09:30:00") /\ stored_datetime (s_ "-"))
  /\ split_datetime (s_ "2023-08-15" ++ [" "%char] ++ s_ "09:30:00")
     = Ok (s_ "2023-08-15", s_ "09:30:00")
  /\ (split_datetime (s_ "2023-08-15 09:30:00")
      = Ok (s_ "2023-08-15", s_ "09:30:00")
      /\ split_datetime (s_ "-") = Ok (s_ "-", s_ "-")).
Proof.
  split; [|split].
  - apply (proj1 timestamps_split_independently
                 (s_ "7 online 2023-08-15 09:30:00 - -")
                 [(5, s_ "-"); (4, s_ "-"); (3, s_ "2023-08-15 09:30:00");
                  (2, s_ "online"); (1, s_ "7")]).
    vm_compute. reflexivity.
  - apply (proj1 (proj2 timestamps_split_independently));
      vm_compute; reflexivity.
  - apply (proj2 (proj2 (proj2 (proj2 timestamps_split_independently)))
                 (s_ "OLT") (s_ "PoP") (s_ "0/1/0") [] entry_up_only
                 record_up_only).
    vm_compute. reflexivity.
Defined.

(* ================================================================== *)
(** * The description of a Table-2 row *)
(* ================================================================== *)

(** The end of a match of the Table-2 data pattern: whitespace after the
    power field, group 6, whitespace, the end of the text. *)
Lemma table2_match_tail (line : str) (m : caps) :
  match_ TABLE2_DATA_RE line = Some m ->
  exists pre ws g6 ws' rest,
    line = pre ++ ws ++ g6 ++ ws' ++ rest
    /\ ws <> [] /\ forallb isspace ws = true
    /\ forallb isspace ws' = true
    /\ at_end rest = true
    /\ group 6 m = g6.
Proof.
  intros H. apply match_sound in H. destruct H as (rest & H).
  unfold TABLE2_DATA_RE in H.
  destruct H as (s0 & m0 & H0 & H). apply Sem_suffix in H0 as (p0 & ->).
  destruct H as (s1 & m1 & H1 & H). apply Sem_suffix in H1 as (p1 & ->).
  destruct H as (s2 & m2 & H2 & H). apply Sem_suffix in H2 as (p2 & ->).
  destruct H as (s3 & m3 & H3 & H). apply Sem_suffix in H3 as (p3 & ->).
  destruct H as (s4 & m4 & H4 & H). apply Sem_suffix in H4 as (p4 & ->).
  destruct H as (s5 & m5 & H5 & H). apply Sem_suffix in H5 as (p5 & ->).
  destruct H as (s6 & m6 & H6 & H). apply Sem_suffix in H6 as (p6 & ->).
  destruct H as (s7 & m7 & H7 & H). apply Sem_suffix in H7 as (p7 & ->).
  destruct H as (s8 & m8 & H8 & H). apply Sem_suffix in H8 as (p8 & ->).
  destruct H as (s9 & m9 & H9 & H). apply Sem_suffix in H9 as (p9 & ->).
  destruct H as (s10 & m10 & H10 & H). apply Sem_suffix in H10 as (p10 & ->).
  destruct H as (s11 & m11 & (ws & -> & Hws & Hlo & _ & ->) & H).
  destruct H as (s12 & m12 & (g6 & m' & -> & _ & ->) & H).
  destruct H as (s13 & m13 & (ws' & -> & Hws' & _ & _ & ->) & H).
  destruct H as (E13 & -> & Hend). subst rest.
  exists (p0 ++ p1 ++ p2 ++ p3 ++ p4 ++ p5 ++ p6 ++ p7 ++ p8 ++ p9 ++ p10),
    ws, g6, ws', s13.
  repeat split; auto.
  - now rewrite <- !app_assoc.
  - intros ->. simpl in Hlo. lia.
Qed.

Lemma at_end_space (rest : str) :
  at_end rest = true -> forallb isspace rest = true.
Proof.
  destruct rest as [|c [|? ?]]; simpl; try discriminate; auto.
  intros H. apply Ascii.eqb_eq in H. subst c. reflexivity.
Qed.

Lemma last_char (s : str) : s = [] \/ exists a c, s = a ++ [c].
Proof.
  destruct (rev s) as [|c t] eqn:E.
  - left. apply (f_equal (@rev ascii)) in E.
    now rewrite rev_involutive in E.
  - right. exists (rev t), c. apply (f_equal (@rev ascii)) in E.
    now rewrite rev_involutive in E.
Qed.

(** A stripped text that ends with a run of whitespace ends with an empty
    one. *)
Lemma strip_no_trailing_space (raw pre ws : str) :
  strip raw = pre ++ ws -> forallb isspace ws = true -> ws = [].
Proof.
  intros E Hws. destruct (last_char ws) as [->|(a & c & ->)]; [reflexivity|].
  rewrite app_assoc in E. apply strip_last in E.
  rewrite forallb_app in Hws. simpl in Hws.
  rewrite E in Hws. rewrite andb_false_r in Hws. discriminate.
Qed.

Lemma dropwhile_keeps_last (p : ascii -> bool) (a : str) (c : ascii) :
  p c = false -> exists a', dropwhile p (a ++ [c]) = a' ++ [c].
Proof.
  intros Hc. induction a as [|x a IH]; simpl.
  - rewrite Hc. now exists [].
  - destruct (p x); [assumption|]. now exists (x :: a).
Qed.

Lemma strip_keeps_last (a : str) (c : ascii) :
  isspace c = false -> strip (a ++ [c]) <> [].
Proof.
  intros Hc. unfold strip, rstrip, lstrip.
  destruct (@dropwhile_keeps_last isspace a c Hc) as (a' & ->).
  rewrite rev_app_distr. simpl. rewrite Hc. simpl.
  destruct (rev (rev a')); discriminate.
Qed.

(** C3 (as the program behaves).  A line reaches the Table-2 pattern
    stripped, and the pattern asks for whitespace after the power field:
    whenever it matches, group 6 and the description stored from it are
    not empty.  The line [1 ABCDEF0123456789 1112 120 -25.3/2.1], which
    ends right after the power field, does not match; in a report it leaves
    the Table-2 accumulator without an entry for the device, whose record
    then has [N/A] in every Table-2 field. *)
Theorem table2_description_never_empty :
  (forall (raw : str) (m : caps),
      match_ TABLE2_DATA_RE (strip raw) = Some m ->
      group 6 m <> [] /\ strip (group 6 m) <> [])
  /\ match_ TABLE2_DATA_RE (strip (s_ "1 ABCDEF0123456789 1112 120 -25.3/2.1"))
     = None
  /\ (forall olt_name : str,
         parse_olt_output
           (unlines [ port_header_0_1_0; table1_header;
                      "1 online 2023-01-01 10:00:00 - -"%string;
                      table2_header;
                      "1 ABCDEF0123456789 1112 120 -25.3/2.1"%string ])
           olt_name
         = Ok [ {| OLT_Name := olt_name;
                   PON_Port := s_ "0/1/0";
                   ONT_ID := 1;
                   Run_State := s_ "online";
                   Last_UpDate := s_ "2023-01-01";
                   Last_UpTime := s_ "10:00:00";
                   Last_DownDate := s_ "-";
                   Last_DownTime := s_ "-";
                   Last_DownCause := s_ "-";
                   SN := s_ "N/A";
                   Type_ := s_ "N/A";
                   Distance_m := s_ "N/A";
                   RxTx_power := s_ "N/A";
                   Description := s_ "N/A";
                   PoP := pop_name olt_name |} ]).
Proof.
  split; [|split].
  - intros raw m H. apply table2_match_tail in H.
    destruct H as (pre & ws & g6 & ws' & rest & E & Hne & Hws & Hws' & Hend
                   & ->).
    apply at_end_space in Hend.
    destruct (last_char g6) as [->|(a & c & ->)].
    + exfalso. apply Hne.
      assert (Hall : forallb isspace (ws ++ ws' ++ rest) = true)
        by (rewrite !forallb_app, Hws, Hws', Hend; reflexivity).
      simpl in E.
      pose proof (@strip_no_trailing_space raw pre (ws ++ ws' ++ rest) E Hall)
        as Hnil.
      now apply app_eq_nil in Hnil.
    + assert (Hall : forallb isspace (ws' ++ rest) = true)
        by (rewrite forallb_app, Hws', Hend; reflexivity).
      assert (E' : strip raw = (pre ++ ws ++ a ++ [c]) ++ ws' ++ rest)
        by (rewrite E, <- !app_assoc; reflexivity).
      pose proof (@strip_no_trailing_space raw _ _ E' Hall) as Hnil.
      rewrite Hnil, app_nil_r in E'.
      replace (pre ++ ws ++ a ++ [c]) with ((pre ++ ws ++ a) ++ [c]) in E'
        by (rewrite <- !app_assoc; reflexivity).
      apply strip_last in E'. split.
      * intros Habs. now apply app_eq_nil in Habs as [_ Habs].
      * now apply strip_keeps_last.
  - vm_compute. reflexivity.
  - intros olt_name. unfold parse_olt_output.
    generalize (pop_name olt_name); intros pop.
    vm_compute. reflexivity.
Qed.

Lemma table2_description_never_empty_witness :
  group 6 [(6, s_ "Customer A"); (5, s_ "-25.3/2.1"); (4, s_ "120");
           (3, s_ "1112"); (2, s_ "ABCDEF0123456789"); (1, s_ "1")] <> []
  /\ strip (s_ "Customer A") <> [].
Proof.
  apply (proj1 table2_description_never_empty
               (s_ "  1 ABCDEF0123456789 1112 120 -25.3/2.1 Customer A ")).
  vm_compute. reflexivity.
Defined.

(* ================================================================== *)
(** * The PoP name *)
(* ================================================================== *)

(** The last code point of the uppercase of a character is one of N, O, C
    and 1 only for that letter, in either case, or that digit. *)
Lemma upper_char_last (c : ascii) (x : N) :
  In x [78; 79; 67; 49]%N ->
  last (upper_char c) 0%N = x ->
  upper_char c = [x] /\ lower_letter c = lower_letter (ascii_of_N x).
Proof.
  intros Hx.
  assert (Hcases : x = 78%N \/ x = 79%N \/ x = 67%N \/ x = 49%N)
    by (simpl in Hx; intuition congruence).
  clear Hx.
  destruct Hcases as [->|[->|[->| ->]]];
    destruct c as [[] [] [] [] [] [] [] []]; vm_compute;
    intros H; try discriminate H; split; reflexivity.
Qed.

Lemma upper_char_lower (c : ascii) (x : N) :
  In x [78; 79; 67; 49]%N ->
  lower_letter c = lower_letter (ascii_of_N x) -> upper_char c = [x].
Proof.
  intros Hx.
  assert (Hcases : x = 78%N \/ x = 79%N \/ x = 67%N \/ x = 49%N)
    by (simpl in Hx; intuition congruence).
  clear Hx.
  destruct Hcases as [->|[->|[->| ->]]];
    destruct c as [[] [] [] [] [] [] [] []]; vm_compute;
    intros H; try discriminate H; reflexivity.
Qed.

Lemma upper_char_nonempty (c : ascii) : upper_char c <> [].
Proof. by_char c. Qed.

Lemma codes_eqb_eq (a b : list N) : codes_eqb a b = true <-> a = b.
Proof.
  revert b; induction a as [|x a IH]; intros [|y b]; simpl;
    try (split; [discriminate|congruence]); [tauto|].
  rewrite andb_true_iff, N.eqb_eq, IH. split.
  - intros [-> ->]. reflexivity.
  - intros [= -> ->]. now split.
Qed.

Lemma skipn_suffix (A : Type) (pre t : list A) :
  skipn (length (pre ++ t) - length t) (pre ++ t) = t.
Proof.
  rewrite length_app, Nat.add_sub, skipn_app, skipn_all, Nat.sub_diag.
  reflexivity.
Qed.

Lemma endswith_iff (suffix u : list N) :
  endswith suffix u = true <-> exists pre, u = pre ++ suffix.
Proof.
  unfold endswith. rewrite andb_true_iff, codes_eqb_eq. split.
  - intros [_ H]. exists (firstn (length u - length suffix) u).
    transitivity (firstn (length u - length suffix) u
                  ++ skipn (length u - length suffix) u).
    + symmetry. apply firstn_skipn.
    + f_equal. exact H.
  - intros (pre & ->). split.
    + apply Nat.leb_le. rewrite length_app. lia.
    + apply skipn_suffix.
Qed.

Lemma ends_with_ci_iff (suffix s : str) :
  ends_with_ci suffix s = true
  <-> exists pre t, s = pre ++ t
                    /\ map lower_letter t = map lower_letter suffix.
Proof.
  unfold ends_with_ci. rewrite andb_true_iff, str_eqb_eq. split.
  - intros [_ H]. exists (firstn (length s - length suffix) s),
      (skipn (length s - length suffix) s).
    split; [symmetry; apply firstn_skipn|assumption].
  - intros (pre & t & -> & H).
    assert (Hlen : length t = length suffix).
    { apply (f_equal (@length ascii)) in H. now rewrite !length_map in H. }
    rewrite <- Hlen. split.
    + apply Nat.leb_le. rewrite length_app. lia.
    + now rewrite skipn_suffix.
Qed.

Lemma upper_app (a b : str) : upper (a ++ b) = upper a ++ upper b.
Proof. apply flat_map_app. Qed.

(** Taking one of the code points N, O, C, 1 off the end of an uppercase
    text takes one character off the end of the text. *)
Lemma upper_peel (s : str) (pre : list N) (x : N) :
  In x [78; 79; 67; 49]%N ->
  upper s = pre ++ [x] ->
  exists s' c, s = s' ++ [c] /\ upper s' = pre
               /\ lower_letter c = lower_letter (ascii_of_N x).
Proof.
  intros Hx H.
  destruct (last_char s) as [->|(s' & c & ->)].
  - destruct pre; discriminate.
  - exists s', c. rewrite upper_app in H.
    change (upper [c]) with (upper_char c ++ []) in H.
    rewrite app_nil_r in H.
    destruct (@exists_last _ (upper_char c) (@upper_char_nonempty c))
      as (l & y & El).
    assert (Hlast : last (upper_char c) 0%N = y)
      by (rewrite El; apply last_last).
    rewrite El, app_assoc in H. apply app_inj_tail in H.
    destruct H as [Hpre ->].
    destruct (@upper_char_last c x Hx Hlast) as [Hup Hlow].
    rewrite Hup in El.
    destruct l as [|z l]; [|destruct l; discriminate].
    rewrite app_nil_r in Hpre. auto.
Qed.

(** On the last segment, the test of the program (uppercase, then
    [endswith("NOC1")]) is the test of the specification. *)
Lemma noc1_test (s : str) :
  endswith (codes (s_ "NOC1")) (upper s) = ends_with_ci (s_ "NOC1") s.
Proof.
  apply eq_true_iff_eq. rewrite endswith_iff, ends_with_ci_iff. split.
  - intros (pre & H). change (codes (s_ "NOC1")) with [78; 79; 67; 49]%N in H.
    change [78; 79; 67; 49]%N with ([78; 79; 67]%N ++ [49]%N) in H.
    rewrite app_assoc in H.
    apply upper_peel in H as (s3 & c4 & -> & H & L4); [|simpl; tauto].
    change [78; 79; 67]%N with ([78; 79]%N ++ [67]%N) in H.
    rewrite app_assoc in H.
    apply upper_peel in H as (s2 & c3 & -> & H & L3); [|simpl; tauto].
    change [78; 79]%N with ([78]%N ++ [79]%N) in H.
    rewrite app_assoc in H.
    apply upper_peel in H as (s1 & c2 & -> & H & L2); [|simpl; tauto].
    apply upper_peel in H as (s0 & c1 & -> & H & L1); [|simpl; tauto].
    exists s0, [c1; c2; c3; c4]. split.
    + now rewrite <- !app_assoc.
    + simpl. now rewrite L1, L2, L3, L4.
  - intros (pre & t & -> & H).
    destruct t as [|c1 [|c2 [|c3 [|c4 [|? ?]]]]]; try discriminate H.
    simpl in H. injection H as L1 L2 L3 L4.
    exists (upper pre). rewrite upper_app. f_equal.
    unfold upper. simpl.
    rewrite (@upper_char_lower c1 78%N), (@upper_char_lower c2 79%N),
      (@upper_char_lower c3 67%N), (@upper_char_lower c4 49%N);
      simpl; auto.
Qed.

Lemma pop_name_site_group (olt_name : str) :
  pop_name olt_name = site_group Unknown_PoP olt_name.
Proof.
  unfold pop_name, site_group. rewrite noc1_test.
  destruct (3 <=? length (split_on "-" olt_name)) eqn:E.
  - apply Nat.leb_le in E.
    destruct (length (split_on "-" olt_name) <? 3) eqn:E'; [|reflexivity].
    apply Nat.ltb_lt in E'. lia.
  - apply Nat.leb_gt in E.
    destruct (length (split_on "-" olt_name) <? 3) eqn:E'; [reflexivity|].
    apply Nat.ltb_ge in E'. lia.
Qed.

(** C4 (as the program behaves).  The PoP name follows the derivation of
    the specification, segment by segment and test by test, with the label
    [Unknown PoP] where the specification says [unknown]:
    [HWGPON2U-01-PNHHQ] gives [PNHHQ], [SITE-A-SHVNOC1] gives [SHVNOC1],
    and [ab] gives [Unknown PoP]. *)
Theorem pop_name_derivation :
  (forall olt_name : str,
      pop_name olt_name = site_group (s_ "Unknown PoP") olt_name)
  /\ pop_name (s_ "HWGPON2U-01-PNHHQ") = s_ "PNHHQ"
  /\ pop_name (s_ "SITE-A-SHVNOC1") = s_ "SHVNOC1"
  /\ pop_name (s_ "ab") = s_ "Unknown PoP".
Proof.
  split; [exact pop_name_site_group|].
  repeat split; vm_compute; reflexivity.
Qed.

(** With the label [unknown] the derivation is not the one of the
    program: at [ab] the program answers [Unknown PoP]. *)
Lemma pop_name_unknown_counterexample :
  pop_name (s_ "ab") <> s_ "unknown"
  /\ pop_name (s_ "ab") <> site_group (s_ "unknown") (s_ "ab").
Proof.
  split; vm_compute; discriminate.
Qed.

(* ================================================================== *)
(** * The order of the records *)
(* ================================================================== *)

Lemma section_line_table1 (st : pstate) (line : str) :
  port_data_table1 (section_line st line)
  = fold_left store_row (opt_list (table1_row st line)) (port_data_table1 st).
Proof.
  unfold section_line, table1_row.
  destruct (search TABLE1_HEADER_RE line); [reflexivity|].
  destruct (search TABLE2_HEADER_RE line); [reflexivity|].
  destruct (startswith (s_ "---") line); [reflexivity|].
  destruct (parsing_state st) as [[|]|]; [| |reflexivity].
  - destruct (match_ TABLE1_DATA_RE line); reflexivity.
  - destruct (match_ TABLE2_DATA_RE line); reflexivity.
Qed.

(** The Table-1 accumulator of a section is what its Table-1 rows, stored
    one after the other, leave in an empty dictionary. *)
Lemma section_table1_rows (sec : str * list str) :
  section_table1 sec = fold_left store_row (table1_rows sec) [].
Proof.
  unfold section_table1, section_state, table1_rows.
  change (@nil (str * t1_data))
    with (port_data_table1 (open_port (fst sec))).
  generalize (open_port (fst sec)).
  induction (snd sec) as [|line body IH]; simpl; intros st; [reflexivity|].
  rewrite IH, fold_left_app. now rewrite section_line_table1.
Qed.

Lemma mem_In (k : str) (ks : list str) : mem k ks = true <-> In k ks.
Proof.
  unfold mem. rewrite existsb_exists. split.
  - intros (x & Hx & E). apply str_eqb_eq in E. now subst.
  - intros H. exists k. split; [assumption|apply str_eqb_refl].
Qed.

Lemma keys_store_row (d : dict t1_data) (row : str * t1_data) :
  keys (store_row d row)
  = if mem (fst row) (keys d) then keys d else keys d ++ [fst row].
Proof.
  unfold store_row. rewrite keys_dict_set.
  destruct (in_dec (list_eq_dec ascii_dec) (fst row) (keys d)) as [Hin|Hin];
    destruct (mem (fst row) (keys d)) eqn:E; try reflexivity.
  - apply mem_In in Hin. congruence.
  - apply mem_In in E. contradiction.
Qed.

Lemma keys_fold_store (rows : list (str * t1_data)) :
  forall d : dict t1_data,
    keys (fold_left store_row rows d)
    = fold_left (fun seen k => if mem k seen then seen else seen ++ [k])
                (map fst rows) (keys d).
Proof.
  induction rows as [|row rows IH]; simpl; intros d; [reflexivity|].
  now rewrite IH, keys_store_row.
Qed.

Lemma get_fold_store (k : str) (rows : list (str * t1_data)) :
  forall d : dict t1_data,
    dict_get k (fold_left store_row rows d)
    = match last_value k rows with
      | Some v => Some v
      | None => dict_get k d
      end.
Proof.
  induction rows as [|[k' v] rows IH]; simpl; intros d; [reflexivity|].
  rewrite IH. destruct (last_value k rows); [reflexivity|].
  unfold store_row; simpl. destruct (str_eqb k k') eqn:E.
  - apply str_eqb_eq in E. subst k'. apply dict_get_set_same.
  - apply str_eqb_neq in E. now apply dict_get_set_other.
Qed.

Lemma store_row_NoDup (d : dict t1_data) (row : str * t1_data) :
  NoDup (keys d) -> NoDup (keys (store_row d row)).
Proof.
  intros H. rewrite keys_store_row.
  destruct (mem (fst row) (keys d)) eqn:E; [assumption|].
  apply NoDup_app; [assumption|repeat constructor; simpl; tauto|].
  intros x Hx [<-|[]]. apply mem_In in Hx. congruence.
Qed.

Lemma fold_store_NoDup (rows : list (str * t1_data)) :
  forall d, NoDup (keys d) -> NoDup (keys (fold_left store_row rows d)).
Proof.
  induction rows as [|row rows IH]; simpl; intros d H; [assumption|].
  apply IH. now apply store_row_NoDup.
Qed.

Lemma NoDup_dict_get (V : Type) (k : str) (v : V) (d : dict V) :
  NoDup (keys d) -> In (k, v) d -> dict_get k d = Some v.
Proof.
  induction d as [|[k' v'] d IH]; simpl; intros Hnd Hin; [contradiction|].
  inversion Hnd as [|? ? Hnot Hnd']; subst.
  destruct Hin as [[= -> ->]|Hin].
  - now rewrite str_eqb_refl.
  - destruct (str_eqb k k') eqn:E; [|auto].
    apply str_eqb_eq in E. subst k'. exfalso. apply Hnot.
    unfold keys. change k with (fst (k, v)). now apply in_map.
Qed.

Lemma Forall2_map_l (A B C : Type) (f : A -> B) (P : B -> C -> Prop)
      (l : list A) (l' : list C) :
  Forall2 (fun a c => P (f a) c) l l' -> Forall2 P (map f l) l'.
Proof.
  induction 1; simpl; constructor; auto.
Qed.

Lemma Forall2_impl_In (A B : Type) (P Q : A -> B -> Prop)
      (l : list A) (l' : list B) :
  (forall a b, In a l -> P a b -> Q a b) ->
  Forall2 P l l' -> Forall2 Q l l'.
Proof.
  intros H H2. induction H2 as [|a b l l' Hab _ IH]; constructor.
  - apply H; [now left|assumption].
  - apply IH. intros a' b' Hin. apply H. now right.
Qed.

Lemma parsing_state_section_line (st : pstate) (line : str) :
  parsing_state (section_line st line)
  = if matches (search TABLE1_HEADER_RE line) then Some table1
    else if matches (search TABLE2_HEADER_RE line) then Some table2
    else parsing_state st.
Proof.
  unfold section_line.
  destruct (search TABLE1_HEADER_RE line); [reflexivity|].
  destruct (search TABLE2_HEADER_RE line); [reflexivity|].
  cbn [matches].
  destruct (startswith (s_ "---") line); [reflexivity|].
  destruct (parsing_state st) as [[|]|] eqn:E; [| |exact E].
  - destruct (match_ TABLE1_DATA_RE line); exact E.
  - destruct (match_ TABLE2_DATA_RE line); exact E.
Qed.

(** The rows that the parser stores are the rows read off the lines. *)
Lemma table1_rows_from_under (body : list str) :
  forall st,
    table1_rows_from st body = rows_under (parsing_state st) body.
Proof.
  induction body as [|line body IH]; intros st; [reflexivity|].
  cbn [table1_rows_from rows_under].
  rewrite IH, parsing_state_section_line. unfold table1_row.
  destruct (search TABLE1_HEADER_RE line); [reflexivity|].
  destruct (search TABLE2_HEADER_RE line); [reflexivity|].
  cbn [matches].
  destruct (startswith (s_ "---") line); [reflexivity|].
  destruct (parsing_state st) as [[|]|]; reflexivity.
Qed.

Lemma table1_rows_section_rows (sec : str * list str) :
  table1_rows sec = section_rows sec.
Proof.
  unfold table1_rows, section_rows.
  rewrite table1_rows_from_under. reflexivity.
Qed.

(** C8.  The output follows the input.  Whenever the parser returns, what
    it returns is the concatenation, in the order of the port sections of
    the text, of the records of each section; the records of a section
    stand in the order of its Table-1 rows, one for each device id at the
    place where the id occurs first, with the field values of the last row
    that has the id.  The sections and their rows are read off the lines
    of the text. *)
Theorem records_in_input_order :
  forall (text_content olt_name : str) (out : list record),
    parse_olt_output text_content olt_name = Ok out ->
    exists rs : list (list record),
      out = concat rs
      /\ Forall2 (fun sec recs =>
                    Forall2 (record_for sec)
                            (first_occurrences (map fst (section_rows sec)))
                            recs)
                 (port_sections text_content) rs.
Proof.
  intros text_content olt_name out Hparse.
  destruct (@parse_section_records text_content olt_name out Hparse)
    as (rs & Hout & Hrs).
  exists rs. split; [assumption|].
  revert Hrs. apply Forall2_impl. intros sec recs H.
  unfold record_for. rewrite <- table1_rows_section_rows.
  assert (Hkeys : first_occurrences (map fst (table1_rows sec))
                  = map fst (section_table1 sec)).
  { rewrite section_table1_rows. unfold first_occurrences. symmetry.
    exact (keys_fold_store (table1_rows sec) []). }
  rewrite Hkeys.
  apply (@Forall2_map_l _ _ _ fst
           (fun k r => PON_Port r = fst sec
                       /\ exists v, last_value k (table1_rows sec) = Some v
                                    /\ table1_fields (k, v) r)).
  revert H. apply Forall2_impl_In.
  intros [k v] r Hin (_ & Hport & _ & H1 & _). cbn [fst].
  split; [assumption|]. exists v. split; [|assumption].
  assert (Hget : dict_get k (section_table1 sec) = Some v).
  { apply NoDup_dict_get; [|assumption].
    rewrite section_table1_rows. apply fold_store_NoDup. constructor. }
  rewrite section_table1_rows, get_fold_store in Hget.
  destruct (last_value k (table1_rows sec)); [exact Hget|discriminate Hget].
Qed.

Lemma records_in_input_order_witness :
  exists rs : list (list record),
    returned (parse_olt_output report_two_ports (s_ "OLT-01-PNHHQ"))
    = concat rs
    /\ Forall2 (fun sec recs =>
                  Forall2 (record_for sec)
                          (first_occurrences (map fst (section_rows sec)))
                          recs)
               (port_sections report_two_ports) rs.
Proof.
  apply (@records_in_input_order report_two_ports (s_ "OLT-01-PNHHQ")).
  vm_compute. reflexivity.
Defined.

Example two_ports_sample :
  forall olt_name : str,
    exists r1 r2 r3,
      parse_olt_output report_two_ports olt_name = Ok [r1; r2; r3]
      /\ (PON_Port r1, ONT_ID r1, Run_State r1)
         = (s_ "0/1/1", 2%Z, s_ "offline")
      /\ (PON_Port r2, ONT_ID r2, Run_State r2)
         = (s_ "0/1/1", 1%Z, s_ "online")
      /\ (PON_Port r3, ONT_ID r3, Run_State r3)
         = (s_ "0/1/0", 5%Z, s_ "online").
Proof.
  intros olt_name. unfold parse_olt_output.
  generalize (pop_name olt_name); intros pop.
  do 3 eexists. split; [vm_compute; reflexivity|].
  repeat split.
Qed.

(* ================================================================== *)
(** * The device id as a key *)
(* ================================================================== *)

Lemma dict_set_new (V : Type) (k : str) (v : V) (d : dict V) :
  ~ In k (keys d) -> dict_set k v d = d ++ [(k, v)].
Proof.
  induction d as [|[k' v'] d IH]; simpl; intros H; [reflexivity|].
  destruct (str_eqb k k') eqn:E.
  - apply str_eqb_eq in E. subst k'. tauto.
  - rewrite IH by tauto. reflexivity.
Qed.

(** C9.  The join of the two tables and the overwriting within a table go
    by the device id as it is written, not by its number.  The Table-2
    fields of a record are those found under the id string of its Table-1
    entry; assigning under one string leaves the entries under every other
    string alone, and a string not yet present opens an entry of its own.
    So a Table-1 row [01] does not meet a Table-2 row [1]: its record has
    [N/A] in the Table-2 fields; and Table-1 rows [1] and [01] of one port
    give two records, both with the ONT ID 1. *)
Theorem device_id_keyed_as_written :
  (forall (olt_name pop port : str) (tab2 : dict t2_data)
          (item : str * t1_data) (r : record),
      make_record olt_name pop port tab2 item = Ok r ->
      table2_fields (dict_get (fst item) tab2) r)
  /\ (forall (k k' : str) (v : t1_data) (d : dict t1_data),
         k <> k' ->
         dict_get k (dict_set k' v d) = dict_get k d
         /\ (~ In k' (keys d) -> dict_set k' v d = d ++ [(k', v)]))
  /\ (py_int (s_ "01") = Ok 1%Z /\ py_int (s_ "1") = Ok 1%Z
      /\ str_eqb (s_ "01") (s_ "1") = false)
  /\ (forall olt_name : str,
         parse_olt_output report_id_01_and_1 olt_name
         = Ok [ {| OLT_Name := olt_name; PON_Port := s_ "0/1/0";
                   ONT_ID := 1; Run_State := s_ "online";
                   Last_UpDate := s_ "2023-01-01";
                   Last_UpTime := s_ "10:00:00";
                   Last_DownDate := s_ "-"; Last_DownTime := s_ "-";
                   Last_DownCause := s_ "-";
                   SN := s_ "N/A"; Type_ := s_ "N/A";
                   Distance_m := s_ "N/A"; RxTx_power := s_ "N/A";
                   Description := s_ "N/A";
                   PoP := pop_name olt_name |} ])
  /\ (forall olt_name : str,
         parse_olt_output report_ids_1_and_01 olt_name
         = Ok [ {| OLT_Name := olt_name; PON_Port := s_ "0/1/0";
                   ONT_ID := 1; Run_State := s_ "online";
                   Last_UpDate := s_ "2023-01-01";
                   Last_UpTime := s_ "10:00:00";
                   Last_DownDate := s_ "-"; Last_DownTime := s_ "-";
                   Last_DownCause := s_ "-";
                   SN := s_ "N/A"; Type_ := s_ "N/A";
                   Distance_m := s_ "N/A"; RxTx_power := s_ "N/A";
                   Description := s_ "N/A";
                   PoP := pop_name olt_name |};
                {| OLT_Name := olt_name; PON_Port := s_ "0/1/0";
                   ONT_ID := 1; Run_State := s_ "offline";
                   Last_UpDate := s_ "-"; Last_UpTime := s_ "-";
                   Last_DownDate := s_ "2023-01-02";
                   Last_DownTime := s_ "11:00:00";
                   Last_DownCause := s_ "LOS";
                   SN := s_ "N/A"; Type_ := s_ "N/A";
                   Distance_m := s_ "N/A"; RxTx_power := s_ "N/A";
                   Description := s_ "N/A";
                   PoP := pop_name olt_name |} ]).
Proof.
  split; [|split; [|split; [|split]]].
  - intros olt_name pop port tab2 item r H.
    now apply make_record_fields in H.
  - intros k k' v d Hne. split.
    + now apply dict_get_set_other.
    + apply dict_set_new.
  - repeat split; vm_compute; reflexivity.
  - intros olt_name. unfold parse_olt_output.
    generalize (pop_name olt_name); intros pop. vm_compute. reflexivity.
  - intros olt_name. unfold parse_olt_output.
    generalize (pop_name olt_name); intros pop. vm_compute. reflexivity.
Qed.

Lemma device_id_keyed_as_written_witness :
  table2_fields (dict_get (s_ "01") table2_with_1) record_01
  /\ (dict_get (s_ "1") (dict_set (s_ "01") (snd entry_01) [(s_ "1", snd entry_01)])
      = dict_get (s_ "1") [(s_ "1", snd entry_01)]
      /\ dict_set (s_ "01") (snd entry_01) [(s_ "1", snd entry_01)]
         = [(s_ "1", snd entry_01)] ++ [(s_ "01", snd entry_01)]).
Proof.
  split.
  - apply (proj1 device_id_keyed_as_written
                 (s_ "OLT") (s_ "PoP") (s_ "0/1/0") table2_with_1 entry_01
                 record_01).
    vm_compute. reflexivity.
  - destruct (proj1 (proj2 device_id_keyed_as_written)
                    (s_ "1") (s_ "01") (snd entry_01)
                    [(s_ "1", snd entry_01)]) as [Hget Hset].
    + discriminate.
    + split; [exact Hget|]. apply Hset.
      simpl. intros [H|[]]. discriminate H.
Defined.

(* ================================================================== *)
(** * The accumulators live as long as the port section *)
(* ================================================================== *)

Lemma dict_set_keeps (V : Type) (k k' : str) (v : V) (d : dict V) :
  In k (keys d) -> In k (keys (dict_set k' v d)).
Proof.
  rewrite keys_dict_set.
  destruct (in_dec (list_eq_dec ascii_dec) k' (keys d)); [auto|].
  intros H. apply in_or_app. auto.
Qed.

(** A line inside a section only adds to the accumulators. *)
Lemma section_line_keeps (st : pstate) (line : str) :
  (forall k, In k (keys (port_data_table1 st)) ->
             In k (keys (port_data_table1 (section_line st line))))
  /\ (forall k, In k (keys (port_data_table2 st)) ->
                In k (keys (port_data_table2 (section_line st line)))).
Proof.
  unfold section_line.
  destruct (search TABLE1_HEADER_RE line); [now split|].
  destruct (search TABLE2_HEADER_RE line); [now split|].
  destruct (startswith (s_ "---") line); [now split|].
  destruct (parsing_state st) as [[|]|]; [| |now split].
  - destruct (match_ TABLE1_DATA_RE line); [|now split].
    split; [|now auto]. intros k. apply dict_set_keeps.
  - destruct (match_ TABLE2_DATA_RE line); [|now split].
    split; [now auto|]. intros k. apply dict_set_keeps.
Qed.

(** C10.  Inside a port section nothing but a port header empties the
    accumulators.  On a line that is not a port header the parser does not
    raise, leaves the records and the port alone, and keeps every key of
    both accumulators; when such a line is a Table-1 or a Table-2 header
    of an open port, the parsing state changes and both accumulators stay
    exactly as they are.  A port header leaves both accumulators empty.
    So the rows of several Table-1 and Table-2 blocks of one port gather
    in the same two tables and are joined at the one flush of the port, as
    in the report with two blocks of each table. *)
Theorem accumulators_cleared_by_port_header_only :
  forall (olt_name pop : str) (st : pstate) (raw : str),
    (search PORT_HEADER_RE (strip raw) = None ->
     exists st',
       step olt_name pop st raw = Ok st'
       /\ all_ont_data st' = all_ont_data st
       /\ current_port st' = current_port st
       /\ (forall k, In k (keys (port_data_table1 st)) ->
                     In k (keys (port_data_table1 st')))
       /\ (forall k, In k (keys (port_data_table2 st)) ->
                     In k (keys (port_data_table2 st')))
       /\ (current_port st <> None ->
           search TABLE1_HEADER_RE (strip raw) <> None ->
           parsing_state st' = Some table1
           /\ port_data_table1 st' = port_data_table1 st
           /\ port_data_table2 st' = port_data_table2 st)
       /\ (current_port st <> None ->
           search TABLE1_HEADER_RE (strip raw) = None ->
           search TABLE2_HEADER_RE (strip raw) <> None ->
           parsing_state st' = Some table2
           /\ port_data_table1 st' = port_data_table1 st
           /\ port_data_table2 st' = port_data_table2 st))
    /\ (search PORT_HEADER_RE (strip raw) <> None ->
        forall st', step olt_name pop st raw = Ok st' ->
                    port_data_table1 st' = [] /\ port_data_table2 st' = [])
    /\ exists r1 r2,
        parse_olt_output report_repeated_tables olt_name = Ok [r1; r2]
        /\ (ONT_ID r1, SN r1, Description r1)
           = (1%Z, s_ "ABCDEF0123456789", s_ "First")
        /\ (ONT_ID r2, SN r2, Description r2)
           = (2%Z, s_ "0123456789ABCDEF", s_ "Second").
Proof.
  intros olt_name pop st raw. split; [|split].
  - intros Hp. unfold step.
    destruct (strip raw) as [|c line] eqn:Eline.
    + exists st. repeat split; auto; intros; exfalso;
        match goal with
        | H : search _ [] <> None |- _ => apply H; vm_compute; reflexivity
        end.
    + rewrite Hp. destruct (current_port st) as [port|] eqn:Eport.
      * exists (section_line st (c :: line)).
        destruct (section_line_frame st (c :: line)) as [Hall Hport].
        destruct (section_line_keeps st (c :: line)) as [H1 H2].
        split; [reflexivity|]. split; [assumption|].
        split; [congruence|]. split; [assumption|]. split; [assumption|].
        unfold section_line. split.
        -- intros _ Hh.
           destruct (search TABLE1_HEADER_RE (c :: line)); [|congruence].
           now repeat split.
        -- intros _ Hh1 Hh2. rewrite Hh1.
           destruct (search TABLE2_HEADER_RE (c :: line)); [|congruence].
           now repeat split.
      * exists st. repeat split; auto; intros; congruence.
  - intros Hp st'. unfold step.
    destruct (strip raw) as [|c line] eqn:Eline.
    + exfalso. apply Hp. reflexivity.
    + destruct (search PORT_HEADER_RE (c :: line)); [|congruence].
      destruct (flush olt_name pop st); simpl; [|discriminate].
      intros [= <-]. now split.
  - unfold parse_olt_output. generalize (pop_name olt_name); intros pop'.
    do 2 eexists. split; [vm_compute; reflexivity|]. now split.
Qed.

Lemma accumulators_cleared_by_port_header_only_witness :
  (exists st',
      step (s_ "OLT") (s_ "PoP") state_with_one_row (s_ table2_header)
      = Ok st'
      /\ parsing_state st' = Some table2
      /\ keys (port_data_table1 st') = [s_ "1"])
  /\ (exists st',
         step (s_ "OLT") (s_ "PoP") state_with_one_row (s_ port_header_0_1_0)
         = Ok st'
         /\ port_data_table1 st' = [] /\ port_data_table2 st' = []).
Proof.
  split.
  - destruct (proj1 (accumulators_cleared_by_port_header_only
                       (s_ "OLT") (s_ "PoP") state_with_one_row
                       (s_ table2_header)))
      as (st' & Hstep & _ & _ & _ & _ & _ & Hswitch).
    + vm_compute. reflexivity.
    + exists st'. split; [exact Hstep|].
      destruct Hswitch as (Hps & Ht1 & _).
      * vm_compute. discriminate.
      * vm_compute. reflexivity.
      * vm_compute. discriminate.
      * split; [exact Hps|]. rewrite Ht1. vm_compute. reflexivity.
  - destruct (step (s_ "OLT") (s_ "PoP") state_with_one_row
                   (s_ port_header_0_1_0)) as [st'|e] eqn:E.
    + exists st'. split; [reflexivity|].
      apply (proj1 (proj2 (accumulators_cleared_by_port_header_only
                             (s_ "OLT") (s_ "PoP") state_with_one_row
                             (s_ port_header_0_1_0)))).
      * vm_compute. discriminate.
      * exact E.
    + vm_compute in E. discriminate E.
Defined.

(* ================================================================== *)
(** * The parser on lines: what it skips and how it composes *)
(* ================================================================== *)

Lemma parse_olt_output_lines (text_content olt_name : str) :
  parse_olt_output text_content olt_name
  = parse_lines olt_name (splitlines text_content).
Proof. reflexivity. Qed.

Lemma parse_lines_sections (olt_name : str) (lines : list str) :
  parse_lines olt_name lines
  = (rs <- mapM (section_records olt_name (pop_name olt_name))
                (sections_from None lines) ;;
     Ok (concat rs)).
Proof.
  unfold parse_lines. now rewrite loop_sections with (cur := None).
Qed.

Lemma search_empty_line (r : regex) :
  run [] r [] [] accept = None -> search r [] = None.
Proof. unfold search. simpl. now intros ->. Qed.

Lemma port_header_not_blank (raw : str) :
  search PORT_HEADER_RE (strip raw) <> None -> strip raw <> [].
Proof.
  intros H E. apply H. rewrite E. reflexivity.
Qed.

(** Without a port header no section opens. *)
Lemma sections_no_port_header (lines : list str) :
  (forall raw, In raw lines -> search PORT_HEADER_RE (strip raw) = None) ->
  sections_from None lines = [].
Proof.
  induction lines as [|raw rest IH]; simpl; intros H; [reflexivity|].
  assert (Hrest : sections_from None rest = [])
    by (apply IH; intros r Hr; apply H; now right).
  destruct (strip raw) as [|c line] eqn:E; [assumption|].
  unfold port_of. rewrite <- E, (H raw) by now left. simpl. assumption.
Qed.

(** X1.  A text without a port header gives no record: the lines read
    before the first port header are skipped, and the final flush has no
    port to flush.  The empty text is such a text. *)
Theorem no_port_header_no_record :
  forall text_content olt_name : str,
    (forall raw, In raw (splitlines text_content) ->
                 search PORT_HEADER_RE (strip raw) = None) ->
    parse_olt_output text_content olt_name = Ok [].
Proof.
  intros text_content olt_name H.
  rewrite parse_sections. unfold port_sections.
  now rewrite sections_no_port_header.
Qed.

Lemma no_port_header_no_record_witness :
  parse_olt_output
    (unlines [ table1_header;
               "1 online 2023-01-01 10:00:00 - -"%string;
               table2_header;
               "1 ABCDEF0123456789 1112 120 -25.3/2.1 Customer A"%string ])
    (s_ "HWGPON2U-01-PNHHQ")
  = Ok [].
Proof.
  apply no_port_header_no_record.
  intros raw Hin. vm_compute in Hin.
  repeat (destruct Hin as [<-|Hin]; [vm_compute; reflexivity|]).
  contradiction.
Defined.

(** A port header closes what precedes it. *)
Lemma sections_from_app (l1 l2 : list str) (hdr : str) :
  search PORT_HEADER_RE (strip hdr) <> None ->
  forall cur,
    sections_from cur (l1 ++ hdr :: l2)
    = sections_from cur l1 ++ sections_from None (hdr :: l2).
Proof.
  intros Hh. induction l1 as [|raw l1 IH]; intros cur.
  - cbn [app sections_from]. destruct (strip hdr) as [|c line] eqn:E.
    + exfalso. apply Hh. reflexivity.
    + unfold port_of.
      destruct (search PORT_HEADER_RE (c :: line)); [|congruence].
      reflexivity.
  - cbn [app sections_from]. destruct (strip raw) as [|c line]; [apply IH|].
    destruct (port_of (c :: line)).
    + rewrite IH. now rewrite app_assoc.
    + apply IH.
Qed.

Lemma parse_lines_app (olt_name : str) (l1 l2 : list str) (hdr : str) :
  search PORT_HEADER_RE (strip hdr) <> None ->
  parse_lines olt_name (l1 ++ hdr :: l2)
  = (a <- parse_lines olt_name l1 ;;
     b <- parse_lines olt_name (hdr :: l2) ;;
     Ok (a ++ b)).
Proof.
  intros Hh.
  rewrite !parse_lines_sections, sections_from_app by assumption.
  rewrite mapM_app.
  destruct (mapM _ (sections_from None l1)) as [ra|];
    cbn [bind]; [|reflexivity].
  destruct (mapM _ (sections_from None (hdr :: l2))) as [rb|];
    cbn [bind]; [|reflexivity].
  now rewrite concat_app.
Qed.

Lemma splitlines_from_lf (n : nat) :
  forall (t1 cur t2 : str),
    length t1 <= n ->
    splitlines_from cur (t1 ++ LF :: t2)
    = splitlines_from cur (t1 ++ [LF]) ++ splitlines t2.
Proof.
  unfold splitlines.
  assert (Hbase : forall cur t2,
             splitlines_from cur (LF :: t2)
             = splitlines_from cur [LF] ++ splitlines_from [] t2)
    by reflexivity.
  induction n as [|n IH]; intros t1 cur t2 Hlen.
  - destruct t1; [apply Hbase|simpl in Hlen; lia].
  - destruct t1 as [|c t1]; [apply Hbase|].
    simpl in Hlen. cbn [app splitlines_from].
    destruct (is_linebreak c).
    + destruct (Ascii.eqb c CR).
      * destruct t1 as [|d t1].
        -- reflexivity.
        -- cbn [app]. destruct (Ascii.eqb d LF).
           ++ simpl in Hlen. rewrite IH by lia. reflexivity.
           ++ cbn [app]. f_equal. apply (IH (d :: t1) [] t2).
              simpl in *; lia.
      * rewrite IH by lia. reflexivity.
    + apply IH. lia.
Qed.

(** X2.  A port header closes everything that precedes it: when a text
    [t2] starts with a port header line, parsing a text [t1], a line feed
    and [t2] gives what parsing [t1] and then [t2] gives.  When both
    return, the result is the records of [t1] followed by the records of
    [t2]; when one of them raises, so does the whole.  Nothing of [t1]
    reaches the records of [t2], and the last port of [t1] is flushed as
    it is at the end of [t1]. *)
Theorem port_header_separates_reports :
  forall (t1 t2 olt_name hdr : str) (rest : list str),
    splitlines t2 = hdr :: rest ->
    search PORT_HEADER_RE (strip hdr) <> None ->
    parse_olt_output (t1 ++ LF :: t2) olt_name
    = (a <- parse_olt_output (t1 ++ [LF]) olt_name ;;
       b <- parse_olt_output t2 olt_name ;;
       Ok (a ++ b)).
Proof.
  intros t1 t2 olt_name hdr rest Hsplit Hh.
  rewrite !parse_olt_output_lines. unfold splitlines at 1.
  rewrite (@splitlines_from_lf (length t1)) by lia.
  rewrite Hsplit. now apply parse_lines_app.
Qed.

Lemma port_header_separates_reports_witness :
  parse_olt_output (report_two_ports ++ LF :: report_one_device)
                   (s_ "OLT-01-PNHHQ")
  = (a <- parse_olt_output (report_two_ports ++ [LF]) (s_ "OLT-01-PNHHQ") ;;
     b <- parse_olt_output report_one_device (s_ "OLT-01-PNHHQ") ;;
     Ok (a ++ b)).
Proof.
  apply (@port_header_separates_reports
           report_two_ports report_one_device (s_ "OLT-01-PNHHQ")
           (s_ port_header_0_1_0)
           (tl (splitlines report_one_device))).
  - vm_compute. reflexivity.
  - vm_compute. discriminate.
Defined.

Lemma step_passed_over (olt_name pop : str) (st : pstate) (raw : str) :
  passed_over raw = true -> step olt_name pop st raw = Ok st.
Proof.
  unfold passed_over, step.
  destruct (strip raw) as [|c line]; [reflexivity|].
  rewrite !andb_true_iff. intros [[[Hp H1] H2] Hsep].
  destruct (search PORT_HEADER_RE (c :: line)); [discriminate|].
  destruct (current_port st); [|reflexivity].
  unfold section_line.
  destruct (search TABLE1_HEADER_RE (c :: line)); [discriminate|].
  destruct (search TABLE2_HEADER_RE (c :: line)); [discriminate|].
  now rewrite Hsep.
Qed.

Lemma loop_passed_over (olt_name pop : str) (lines : list str) :
  forall st,
    loop olt_name pop st (filter (fun raw => negb (passed_over raw)) lines)
    = loop olt_name pop st lines.
Proof.
  induction lines as [|raw rest IH]; intros st; [reflexivity|].
  cbn [filter loop].
  destruct (passed_over raw) eqn:E; cbn [negb].
  - rewrite (step_passed_over olt_name pop st raw E). cbn [bind]. apply IH.
  - cbn [loop]. destruct (step olt_name pop st raw); cbn [bind];
      [apply IH|reflexivity].
Qed.

(** X3.  Blank lines and separator lines carry nothing: taking out of the
    lines of a report every line that is blank after stripping, and every
    line that starts with three dashes and is neither a port header nor a
    table header, leaves the result of the parser as it is. *)
Theorem blank_and_separator_lines_ignored :
  forall (olt_name : str) (lines : list str),
    parse_lines olt_name (filter (fun raw => negb (passed_over raw)) lines)
    = parse_lines olt_name lines.
Proof.
  intros olt_name lines. unfold parse_lines. now rewrite loop_passed_over.
Qed.

Lemma make_record_retag (o1 p1 o2 port : str) (tab2 : dict t2_data)
      (item : str * t1_data) (r : record) :
  make_record o1 p1 port tab2 item = Ok r ->
  make_record o2 (pop_name o2) port tab2 item = Ok (retag o2 r).
Proof.
  destruct item as [k d]. unfold make_record.
  destruct (py_int k); cbn [bind]; [|discriminate].
  destruct (split_datetime (t1_UpDateTime d)); cbn [bind]; [|discriminate].
  destruct (split_datetime (t1_DownDateTime d)); cbn [bind]; [|discriminate].
  intros [= <-]. reflexivity.
Qed.

Lemma mapM_map_ok (A B : Type) (f g : A -> result B) (h : B -> B)
      (l : list A) :
  (forall a b, f a = Ok b -> g a = Ok (h b)) ->
  forall bs, mapM f l = Ok bs -> mapM g l = Ok (map h bs).
Proof.
  intros Hfg. induction l as [|a l IH]; cbn [mapM]; intros bs H.
  - injection H as <-. reflexivity.
  - destruct (f a) as [b|] eqn:Eb; cbn [bind] in H; [|discriminate].
    destruct (mapM f l) as [bs'|]; cbn [bind] in H; [|discriminate].
    injection H as <-. rewrite (Hfg a b Eb). cbn [bind].
    rewrite (IH bs' eq_refl). reflexivity.
Qed.

(** X4.  The OLT name only labels the records.  When the parser returns
    on a text under one OLT name, it returns on the same text under any
    other OLT name, with the same records in the same order, the new name
    in the OLT Name field and the PoP derived from the new name; every
    other field is unchanged. *)
Theorem olt_name_only_labels :
  forall (text_content name1 name2 : str) (out : list record),
    parse_olt_output text_content name1 = Ok out ->
    parse_olt_output text_content name2 = Ok (map (retag name2) out).
Proof.
  intros text_content name1 name2 out Hparse.
  destruct (@parse_ok_sections text_content name1 out Hparse)
    as (rs & Hrs & ->).
  rewrite parse_sections.
  assert (H2 : mapM (section_records name2 (pop_name name2))
                    (port_sections text_content)
               = Ok (map (map (retag name2)) rs)).
  { revert Hrs. apply mapM_map_ok. intros sec recs.
    unfold section_records, combine_port.
    apply mapM_map_ok. intros item r. apply make_record_retag. }
  rewrite H2. cbn [bind]. now rewrite concat_map.
Qed.

Lemma olt_name_only_labels_witness :
  parse_olt_output report_two_ports (s_ "HWGPON2U-02-KDLNOC1")
  = Ok (map (retag (s_ "HWGPON2U-02-KDLNOC1"))
            (returned (parse_olt_output report_two_ports
                                        (s_ "OLT-01-PNHHQ")))).
Proof.
  apply (@olt_name_only_labels report_two_ports (s_ "OLT-01-PNHHQ")).
  vm_compute. reflexivity.
Defined.

(* ================================================================== *)
(** * Texts that give no record, and how many records a text can give *)
(* ================================================================== *)

Lemma fold_no_table1_header (body : list str) :
  Forall (fun line => search TABLE1_HEADER_RE line = None) body ->
  forall st,
    parsing_state st <> Some table1 -> port_data_table1 st = [] ->
    port_data_table1 (fold_left section_line body st) = [].
Proof.
  induction 1 as [|line body Hline _ IH]; intros st Hps Ht1; [assumption|].
  cbn [fold_left]. unfold section_line at 2. rewrite Hline.
  destruct (search TABLE2_HEADER_RE line).
  - apply IH; [discriminate|assumption].
  - destruct (startswith (s_ "---") line); [now apply IH|].
    destruct (parsing_state st) as [[|]|] eqn:E.
    + congruence.
    + destruct (match_ TABLE2_DATA_RE line); apply IH; cbn; congruence.
    + apply IH; congruence.
Qed.

Lemma fold_no_table1_row (body : list str) :
  Forall (fun line => match_ TABLE1_DATA_RE line = None) body ->
  forall st,
    port_data_table1 st = [] ->
    port_data_table1 (fold_left section_line body st) = [].
Proof.
  induction 1 as [|line body Hline _ IH]; intros st Ht1; [assumption|].
  cbn [fold_left]. apply IH. unfold section_line. rewrite Hline.
  destruct (search TABLE1_HEADER_RE line); [assumption|].
  destruct (search TABLE2_HEADER_RE line); [assumption|].
  destruct (startswith (s_ "---") line); [assumption|].
  destruct (parsing_state st) as [[|]|]; [assumption| |assumption].
  destruct (match_ TABLE2_DATA_RE line); assumption.
Qed.

Lemma mapM_all_empty (A B : Type) (f : A -> result (list B)) (l : list A) :
  Forall (fun a => f a = Ok []) l ->
  exists rs, mapM f l = Ok rs /\ concat rs = [].
Proof.
  induction 1 as [|a l Ha _ (rs & Hrs & Hc)]; cbn [mapM].
  - exists []. now split.
  - rewrite Ha, Hrs. cbn [bind]. exists ([] :: rs). now split.
Qed.

Lemma empty_tables_no_record (text_content olt_name : str) :
  Forall (fun sec => section_table1 sec = []) (port_sections text_content) ->
  parse_olt_output text_content olt_name = Ok [].
Proof.
  intros H. rewrite parse_sections.
  destruct (@mapM_all_empty _ _
              (section_records olt_name (pop_name olt_name))
              (port_sections text_content)) as (rs & Hrs & Hc).
  - revert H. apply Forall_impl. intros sec Hsec.
    unfold section_records, combine_port. now rewrite Hsec.
  - rewrite Hrs. cbn [bind]. now rewrite Hc.
Qed.

(** X5.  Records need Table 1.  A text in which no line is a Table-1
    header, or in which no line matches the Table-1 data pattern, gives no
    record, whatever ports and Table-2 rows it has: data lines count only
    after a Table-1 header has switched the parser to Table 1, and a port
    whose Table-1 accumulator is empty is flushed to nothing. *)
Theorem no_table1_no_record :
  forall text_content olt_name : str,
    (forall raw, In raw (splitlines text_content) ->
                 search TABLE1_HEADER_RE (strip raw) = None)
    \/ (forall raw, In raw (splitlines text_content) ->
                    match_ TABLE1_DATA_RE (strip raw) = None) ->
    parse_olt_output text_content olt_name = Ok [].
Proof.
  intros text_content olt_name [H|H]; apply empty_tables_no_record.
  - generalize (@port_sections_body
                  (fun line => search TABLE1_HEADER_RE line = None)
                  text_content H).
    apply Forall_impl. intros sec Hsec.
    unfold section_table1, section_state.
    apply fold_no_table1_header; [assumption|discriminate|reflexivity].
  - generalize (@port_sections_body
                  (fun line => match_ TABLE1_DATA_RE line = None)
                  text_content H).
    apply Forall_impl. intros sec Hsec.
    unfold section_table1, section_state.
    now apply fold_no_table1_row.
Qed.

Lemma no_table1_no_record_witness :
  parse_olt_output
    (unlines [ port_header_0_1_0;
               "1 online 2023-01-01 10:00:00 - -"%string;
               table2_header;
               "1 ABCDEF0123456789 1112 120 -25.3/2.1 Customer A"%string ])
    (s_ "OLT-01-PNHHQ") = Ok []
  /\ parse_olt_output
       (unlines [ port_header_0_1_0; table1_header; table2_header;
                  "1 ABCDEF0123456789 1112 120 -25.3/2.1 Customer A"%string ])
       (s_ "OLT-01-PNHHQ") = Ok [].
Proof.
  split; apply no_table1_no_record.
  - left. intros raw Hin. vm_compute in Hin.
    repeat (destruct Hin as [<-|Hin]; [vm_compute; reflexivity|]).
    contradiction.
  - right. intros raw Hin. vm_compute in Hin.
    repeat (destruct Hin as [<-|Hin]; [vm_compute; reflexivity|]).
    contradiction.
Defined.

Lemma dict_set_length (V : Type) (k : str) (v : V) (d : dict V) :
  length (dict_set k v d) <= S (length d).
Proof.
  induction d as [|[k' v'] d IH]; cbn; [lia|].
  destruct (str_eqb k k'); cbn; lia.
Qed.

Lemma fold_store_length (rows : list (str * t1_data)) :
  forall d, length (fold_left store_row rows d) <= length d + length rows.
Proof.
  induction rows as [|row rows IH]; intros d; cbn [fold_left length]; [lia|].
  specialize (IH (store_row d row)).
  pose proof (dict_set_length (fst row) (snd row) d) as Hs.
  unfold store_row in *. lia.
Qed.

Lemma table1_rows_length (body : list str) :
  forall st, length (table1_rows_from st body) <= length body.
Proof.
  induction body as [|line body IH]; intros st; cbn [table1_rows_from length];
    [lia|].
  rewrite length_app. specialize (IH (section_line st line)).
  destruct (table1_row st line); cbn; lia.
Qed.

Lemma section_table1_length (sec : str * list str) :
  length (section_table1 sec) <= length (snd sec).
Proof.
  rewrite section_table1_rows.
  pose proof (fold_store_length (table1_rows sec) []) as H1.
  pose proof (table1_rows_length (snd sec) (open_port (fst sec))) as H2.
  unfold table1_rows in *. cbn in H1. lia.
Qed.

Lemma lines_used_app (a b : list (str * list str)) :
  lines_used (a ++ b) = lines_used a + lines_used b.
Proof.
  unfold lines_used. now rewrite map_app, list_sum_app.
Qed.

Lemma sections_lines_used (lines : list str) :
  forall cur,
    lines_used (sections_from cur lines)
    <= length lines + lines_used (closed cur).
Proof.
  induction lines as [|raw rest IH]; intros cur; cbn [sections_from length];
    [lia|].
  destruct (strip raw) as [|c line]; [specialize (IH cur); lia|].
  destruct (port_of (c :: line)).
  - rewrite lines_used_app. specialize (IH (Some (s, []))).
    cbn in IH. lia.
  - specialize (IH (extend (c :: line) cur)).
    destruct cur as [[port body]|]; cbn in *; [|lia].
    rewrite length_app in IH. cbn in IH. lia.
Qed.

Lemma records_lines_used (olt_name : str) (secs : list (str * list str)) :
  forall rs,
    mapM (section_records olt_name (pop_name olt_name)) secs = Ok rs ->
    length (concat rs) + length secs <= lines_used secs.
Proof.
  induction secs as [|sec secs IH]; cbn [mapM]; intros rs H.
  - injection H as <-. cbn. lia.
  - destruct (section_records olt_name (pop_name olt_name) sec)
      as [recs|] eqn:E; cbn [bind] in H; [|discriminate].
    destruct (mapM _ secs) as [rs'|]; cbn [bind] in H; [|discriminate].
    injection H as <-. specialize (IH rs' eq_refl).
    apply section_records_fields in E. apply Forall2_length in E.
    pose proof (section_table1_length sec) as Hl.
    change (lines_used (sec :: secs))
      with (S (length (snd sec)) + lines_used secs).
    change (concat (recs :: rs')) with (recs ++ concat rs').
    rewrite length_app. cbn [length]. lia.
Qed.

(** X6.  The parser makes no record up: whenever it returns, every record
    has taken a data line of its own and every port a port header line, so
    the number of records plus the number of port sections is at most the
    number of lines of the text. *)
Theorem records_bounded_by_lines :
  forall (text_content olt_name : str) (out : list record),
    parse_olt_output text_content olt_name = Ok out ->
    length out + length (port_sections text_content)
    <= length (splitlines text_content).
Proof.
  intros text_content olt_name out Hparse.
  destruct (@parse_ok_sections text_content olt_name out Hparse)
    as (rs & Hrs & ->).
  apply records_lines_used in Hrs.
  pose proof (sections_lines_used (splitlines text_content) None) as H.
  unfold port_sections in *. cbn in H. lia.
Qed.

Lemma records_bounded_by_lines_witness :
  length (returned (parse_olt_output report_two_ports (s_ "OLT-01-PNHHQ")))
  + length (port_sections report_two_ports)
  <= length (splitlines report_two_ports).
Proof.
  apply (@records_bounded_by_lines report_two_ports (s_ "OLT-01-PNHHQ")).
  vm_compute. reflexivity.
Defined.

(* ================================================================== *)
(** * The shape of the records *)
(* ================================================================== *)









Lemma digits_value_nonneg (s : str) :
  forall acc, (0 <= acc)%Z -> (0 <= digits_value acc s)%Z.
Proof.
  unfold digits_value.
  induction s as [|c s IH]; cbn [fold_left]; intros acc H; [assumption|].
  apply IH. lia.
Qed.

Lemma Forall2_origin (A B : Type) (Q : A -> B -> Prop)
      (l : list A) (l' : list B) :
  Forall2 Q l l' -> Forall (fun b => exists a, In a l /\ Q a b) l'.
Proof.
  induction 1 as [|a b l l' Hab _ IH]; constructor.
  - exists a. split; [now left|assumption].
  - revert IH. apply Forall_impl. intros b' (a' & Hin & Hq).
    exists a'. split; [now right|assumption].
Qed.

Lemma Forall2_concat_origin (A B C : Type) (items : A -> list C)
      (P : A -> C -> B -> Prop) (secs : list A) (rs : list (list B)) :
  Forall2 (fun sec recs => Forall2 (P sec) (items sec) recs) secs rs ->
  Forall (fun r => exists sec item,
              In sec secs /\ In item (items sec) /\ P sec item r)
         (concat rs).
Proof.
  induction 1 as [|sec recs secs rs Hsec _ IH]; cbn [concat].
  - constructor.
  - apply Forall_app. split.
    + apply Forall2_origin in Hsec. revert Hsec. apply Forall_impl.
      intros r (item & Hin & Hp). exists sec, item.
      split; [now left|]. now split.
    + revert IH. apply Forall_impl.
      intros r (sec' & item & Hs & Hi & Hp). exists sec', item.
      split; [now right|]. now split.
Qed.

(** Where the records of a text come from. *)
Lemma parse_records_origin (text_content olt_name : str)
      (out : list record) :
  parse_olt_output text_content olt_name = Ok out ->
  Forall (fun r => exists sec item,
              In sec (port_sections text_content)
              /\ In item (section_table1 sec)
              /\ record_of olt_name sec item r) out.
Proof.
  intros Hparse.
  destruct (@parse_section_records text_content olt_name out Hparse)
    as (rs & -> & Hrs).
  now apply Forall2_concat_origin in Hrs.
Qed.



Lemma cause_char_not_space (c : ascii) :
  either isword (either (is_ "/") (is_ "-")) c = true -> nonspace c = true.
Proof. by_char c. Qed.

(** Group 5 of a match of the Table-1 data pattern is a token. *)
Lemma table1_match_cause (line : str) (m : caps) :
  match_ TABLE1_DATA_RE line = Some m -> token (group 5 m).
Proof.
  intros H. apply match_sound in H. destruct H as (rest & H).
  unfold TABLE1_DATA_RE in H.
  destruct H as (s0 & m0 & _ & H). destruct H as (s1 & m1 & _ & H).
  destruct H as (s2 & m2 & _ & H). destruct H as (s3 & m3 & _ & H).
  destruct H as (s4 & m4 & _ & H). destruct H as (s5 & m5 & _ & H).
  destruct H as (s6 & m6 & _ & H). destruct H as (s7 & m7 & _ & H).
  destruct H as (s8 & m8 & _ & H). destruct H as (s9 & m9 & _ & H).
  destruct H as (s10 & m10 & (g5 & m9' & E5 & H5 & ->) & H).
  destruct H as (s11 & m11 & (w5 & -> & _ & _ & _ & ->) & H).
  destruct H as (_ & -> & _).
  unfold group; cbn.
  destruct H5 as [(g & E & Hall & Hlo & _ & _)|[E _]];
    rewrite E in E5; apply app_inv_tail in E5; subst g5.
  - split.
    + intros ->. cbn in Hlo. lia.
    + revert Hall. apply forallb_weaken. exact cause_char_not_space.
  - split; [discriminate|reflexivity].
Qed.

Lemma store_table1_entry (m : caps) (line : str) (st : pstate) :
  match_ TABLE1_DATA_RE line = Some m ->
  Forall table1_entry (port_data_table1 st) ->
  Forall table1_entry (port_data_table1 (store_table1 m st)).
Proof.
  intros Hm Hwf. pose proof (table1_match_cause line Hm) as Hc.
  apply table1_match_shape in Hm. destruct Hm as (H1 & H2 & H3 & H4).
  unfold store_table1; cbn. apply dict_set_Forall; [|assumption].
  exact (conj (conj H1 (conj H3 H4)) (conj H2 Hc)).
Qed.

Lemma section_line_table1_entry (st : pstate) (line : str) :
  Forall table1_entry (port_data_table1 st) ->
  Forall table1_entry (port_data_table1 (section_line st line)).
Proof.
  intros Hwf. unfold section_line.
  destruct (search TABLE1_HEADER_RE line); [assumption|].
  destruct (search TABLE2_HEADER_RE line); [assumption|].
  destruct (startswith (s_ "---") line); [assumption|].
  destruct (parsing_state st) as [[|]|]; [| |assumption].
  - destruct (match_ TABLE1_DATA_RE line) eqn:E; [|assumption].
    now apply store_table1_entry with (line := line).
  - destruct (match_ TABLE2_DATA_RE line); assumption.
Qed.

Lemma section_table1_entries (sec : str * list str) :
  Forall table1_entry (section_table1 sec).
Proof.
  unfold section_table1, section_state.
  assert (H : Forall table1_entry (port_data_table1 (open_port (fst sec))))
    by constructor.
  revert H. generalize (open_port (fst sec)).
  induction (snd sec) as [|line body IH]; cbn [fold_left]; intros st H;
    [assumption|].
  apply IH. now apply section_line_table1_entry.
Qed.

Lemma split_datetime_date_and_time (v date time : str) :
  stored_datetime v -> split_datetime v = Ok (date, time) ->
  date_and_time date time.
Proof.
  intros [->|(d & w & t & -> & Hd & Hdc & Hw & Ht & Htc)] H.
  - injection H as <- <-. now left.
  - rewrite split_datetime_shape in H by assumption.
    injection H as <- <-. right. auto.
Qed.

(** X8.  Whenever the parser returns, the Table-1 part of every record
    is well formed: the ONT ID is not negative, the run state is [online]
    or [offline], each of the two timestamps came out as two dashes or as
    a date of ten characters and a time of eight, and the down-cause is a
    non-empty text without whitespace. *)
Theorem table1_part_well_formed :
  forall (text_content olt_name : str) (out : list record),
    parse_olt_output text_content olt_name = Ok out ->
    Forall table1_part out.
Proof.
  intros text_content olt_name out Hparse.
  pose proof (@parse_records_origin text_content olt_name out Hparse) as Ho.
  revert Ho. apply Forall_impl.
  intros r (sec & item & _ & Hitem & (_ & _ & _ & H1 & _)).
  pose proof (section_table1_entries sec) as Hent.
  rewrite Forall_forall in Hent. apply Hent in Hitem.
  destruct Hitem as (((Hne & Hdec) & Hup & Hdown) & Hrun & Hcause).
  destruct H1 as (Hid & Hrs & Hu & Hd & Hc).
  unfold table1_part. rewrite Hrs, Hc.
  apply py_int_decimal_ok in Hid; [|assumption|assumption].
  destruct Hid as [_ ->].
  repeat split; auto.
  - apply digits_value_nonneg. lia.
  - now apply split_datetime_date_and_time with (v := t1_UpDateTime (snd item)).
  - now apply split_datetime_date_and_time
      with (v := t1_DownDateTime (snd item)).
  - apply Hcause.
  - apply Hcause.
Qed.

Lemma table1_part_well_formed_witness :
  Forall table1_part
         (returned (parse_olt_output report_two_ports (s_ "OLT-01-PNHHQ"))).
Proof.
  apply (@table1_part_well_formed report_two_ports (s_ "OLT-01-PNHHQ")).
  vm_compute. reflexivity.
Defined.

Lemma dash_not_space : forallb nonspace (s_ "-") = true.
Proof. reflexivity. Qed.

Lemma forallb_is_dash_nonspace (o : str) :
  forallb (is_ "-") o = true -> forallb nonspace o = true.
Proof.
  apply forallb_weaken. intros c Hc. unfold is_ in Hc.
  apply Ascii.eqb_eq in Hc. now subst c.
Qed.

(** What a match of the Table-2 data pattern captures in its first five
    groups. *)
Lemma table2_match_shape (line : str) (m : caps) :
  match_ TABLE2_DATA_RE line = Some m ->
  decimal_text (group 1 m)
  /\ serial_text (group 2 m)
  /\ token (group 3 m)
  /\ distance_text (group 4 m)
  /\ power_text (group 5 m).
Proof.
  intros H. apply match_sound in H. destruct H as (rest & H).
  unfold TABLE2_DATA_RE in H.
  destruct H as (s0 & m0 & (-> & -> & _) & H).
  destruct H as (s1 & m1 & (w0 & -> & _ & _ & _ & ->) & H).
  destruct H as (s2 & m2 & (g1 & m1' & E1 & H1 & ->) & H).
  apply Sem_plus_decimal in H1. destruct H1 as (-> & g1' & E1' & Hg1).
  rewrite E1' in E1. apply app_inv_tail in E1. subst g1'.
  destruct H as (s3 & m3 & (w1 & -> & _ & _ & _ & ->) & H).
  destruct H as (s4 & m4 & (g2 & m3' & E2 & H2 & ->) & H).
  assert (Hg2 : serial_text g2 /\ m3' = [(1, g1)]).
  { destruct H2 as [(h & E & Hall & Hlo & Hhi & ->)|[E ->]];
      rewrite E in E2; apply app_inv_tail in E2; subst g2.
    - split; [|reflexivity]. right. cbn in Hhi. split; [lia|assumption].
    - split; [|reflexivity]. now left. }
  destruct Hg2 as [Hg2 ->].
  destruct H as (s5 & m5 & (w2 & -> & _ & _ & _ & ->) & H).
  destruct H as (s6 & m6 & (g3 & m5' & E3 & H3 & ->) & H).
  assert (Hg3 : token g3 /\ m5' = [(2, g2); (1, g1)]).
  { destruct H3 as (h & E & Hall & Hlo & _ & ->).
    rewrite E in E3. apply app_inv_tail in E3. subst g3.
    split; [|reflexivity]. split; [|assumption].
    intros ->. cbn in Hlo. lia. }
  destruct Hg3 as [Hg3 ->].
  destruct H as (s7 & m7 & (w3 & -> & _ & _ & _ & ->) & H).
  destruct H as (s8 & m8 & (g4 & m7' & E4 & H4 & ->) & H).
  assert (Hg4 : distance_text g4 /\ m7' = [(3, g3); (2, g2); (1, g1)]).
  { destruct H4 as [H4|[E ->]].
    - apply Sem_plus_decimal in H4. destruct H4 as (-> & h & E & Hh).
      rewrite E in E4. apply app_inv_tail in E4. subst g4.
      split; [now right|reflexivity].
    - rewrite E in E4. apply app_inv_tail in E4. subst g4.
      split; [now left|reflexivity]. }
  destruct Hg4 as [Hg4 ->].
  destruct H as (s9 & m9 & (w4 & -> & _ & _ & _ & ->) & H).
  destruct H as (s10 & m10 & (g5 & m9' & E5 & H5 & ->) & H).
  assert (Hg5 : power_text g5
                /\ m9' = [(4, g4); (3, g3); (2, g2); (1, g1)]).
  { destruct H5 as [H5|[E ->]].
    - destruct H5 as (t1 & n1 & (x & -> & Hx & Hxlo & _ & ->) & H5).
      destruct H5 as (t2 & n2 & (-> & ->) & H5).
      destruct H5 as (t3 & n3 & (o & -> & Ho & _ & _ & ->) & H5).
      destruct H5 as (y & -> & Hy & Hylo & _ & ->).
      assert (E : g5 = x ++ s_ "/" ++ o ++ y).
      { apply app_inv_tail with (l := s10). rewrite <- E5.
        now rewrite <- !app_assoc. }
      subst g5. split; [|reflexivity]. split; [split|].
      + destruct x; [cbn in Hxlo; lia|discriminate].
      + rewrite !forallb_app, Hx, Hy, (forallb_is_dash_nonspace o Ho).
        reflexivity.
      + apply in_or_app. right. now left.
    - rewrite E in E5. apply app_inv_tail in E5. subst g5.
      split; [|reflexivity]. split; [split|].
      + discriminate.
      + reflexivity.
      + cbn. tauto. }
  destruct Hg5 as [Hg5 ->].
  destruct H as (s11 & m11 & (w5 & -> & _ & _ & _ & ->) & H).
  destruct H as (s12 & m12 & (g6 & m11' & E6 & H6 & ->) & H).
  assert (Hm : m11' = [(5, g5); (4, g4); (3, g3); (2, g2); (1, g1)])
    by (destruct H6 as (? & _ & _ & _ & _ & ->); reflexivity).
  subst m11'.
  destruct H as (s13 & m13 & (w6 & -> & _ & _ & _ & ->) & H).
  destruct H as (_ & -> & _).
  unfold group; cbn. auto.
Qed.

Lemma store_table2_entry (m : caps) (line : str) (st : pstate) :
  match_ TABLE2_DATA_RE line = Some m ->
  Forall table2_entry (port_data_table2 st) ->
  Forall table2_entry (port_data_table2 (store_table2 m st)).
Proof.
  intros Hm Hwf. apply table2_match_shape in Hm.
  destruct Hm as (H1 & H2 & H3 & H4 & H5).
  unfold store_table2; cbn. apply dict_set_Forall; [|assumption].
  unfold table2_entry; cbn.
  split; [assumption|]. split; [assumption|].
  split; [|split; assumption].
  exists (group 3 m). now split.
Qed.

Lemma section_line_table2_entry (st : pstate) (line : str) :
  Forall table2_entry (port_data_table2 st) ->
  Forall table2_entry (port_data_table2 (section_line st line)).
Proof.
  intros Hwf. unfold section_line.
  destruct (search TABLE1_HEADER_RE line); [assumption|].
  destruct (search TABLE2_HEADER_RE line); [assumption|].
  destruct (startswith (s_ "---") line); [assumption|].
  destruct (parsing_state st) as [[|]|]; [| |assumption].
  - destruct (match_ TABLE1_DATA_RE line); assumption.
  - destruct (match_ TABLE2_DATA_RE line) eqn:E; [|assumption].
    now apply store_table2_entry with (line := line).
Qed.

Lemma section_table2_entries (sec : str * list str) :
  Forall table2_entry (section_table2 sec).
Proof.
  unfold section_table2, section_state.
  assert (H : Forall table2_entry (port_data_table2 (open_port (fst sec))))
    by constructor.
  revert H. generalize (open_port (fst sec)).
  induction (snd sec) as [|line body IH]; cbn [fold_left]; intros st H;
    [assumption|].
  apply IH. now apply section_line_table2_entry.
Qed.

Lemma serial_text_not_NA : ~ serial_text NA.
Proof.
  intros [H|[H _]]; discriminate H.
Qed.

(** X9.  Whenever the parser returns, the Table-2 part of every record is
    all or nothing.  Either the five Table-2 fields all hold the marker
    [N/A], or they come from one Table-2 row: the SN is a dash or sixteen
    hexadecimal digits, the type is the remap of a token, the distance is
    a dash or a number, and the power is a token with a slash.  The SN
    tells the two cases apart: it is [N/A] only when the other four fields
    are [N/A] too. *)
Theorem table2_part_all_or_nothing :
  forall (text_content olt_name : str) (out : list record),
    parse_olt_output text_content olt_name = Ok out ->
    Forall (fun r =>
              table2_part r
              /\ (SN r = NA ->
                  Type_ r = NA /\ Distance_m r = NA
                  /\ RxTx_power r = NA /\ Description r = NA))
           out.
Proof.
  intros text_content olt_name out Hparse.
  pose proof (@parse_records_origin text_content olt_name out Hparse) as Ho.
  revert Ho. apply Forall_impl.
  intros r (sec & item & _ & _ & (_ & _ & _ & _ & H2)).
  assert (Hpart : table2_part r).
  { destruct (dict_get (fst item) (section_table2 sec)) as [d|] eqn:E;
      cbn in H2.
    - apply dict_get_In in E.
      pose proof (section_table2_entries sec) as Hent.
      rewrite Forall_forall in Hent. apply Hent in E.
      destruct E as (_ & Hsn & Hty & Hdi & Hpo). cbn in Hsn, Hty, Hdi, Hpo.
      destruct H2 as (E1 & E2 & E3 & E4 & _). right.
      rewrite E1, E2, E3, E4. auto.
    - left. exact H2. }
  split; [assumption|].
  intros Hsn. destruct Hpart as [H|[H _]].
  - tauto.
  - rewrite Hsn in H. now apply serial_text_not_NA in H.
Qed.

Lemma table2_part_all_or_nothing_witness :
  Forall (fun r => Type_ r = NA /\ Distance_m r = NA
                   /\ RxTx_power r = NA /\ Description r = NA)
         (returned (parse_olt_output report_id_01_and_1
                                     (s_ "OLT-01-PNHHQ"))).
Proof.
  assert (Hp : parse_olt_output report_id_01_and_1 (s_ "OLT-01-PNHHQ")
               = Ok (returned (parse_olt_output report_id_01_and_1
                                                (s_ "OLT-01-PNHHQ"))))
    by (vm_compute; reflexivity).
  pose proof (@table2_part_all_or_nothing
                report_id_01_and_1 (s_ "OLT-01-PNHHQ") _ Hp) as Ho.
  assert (Hout : Forall (fun r => SN r = NA)
                        (returned (parse_olt_output report_id_01_and_1
                                                    (s_ "OLT-01-PNHHQ"))))
    by (vm_compute; repeat constructor).
  rewrite Forall_forall in *. intros r Hin.
  apply (proj2 (Ho r Hin)). now apply Hout.
Defined.

Lemma map_type_never_code (t : str) :
  map_type t <> s_ "1112" /\ map_type t <> s_ "1108".
Proof.
  unfold map_type.
  destruct (str_eqb t (s_ "1112")) eqn:E1; [split; discriminate|].
  destruct (str_eqb t (s_ "1108")) eqn:E2; [split; discriminate|].
  apply str_eqb_neq in E1, E2. now split.
Qed.

(** X10.  The type codes [1112] and [1108] never reach the output:
    whenever the parser returns, the Type of no record is one of them. *)
Theorem type_codes_never_output :
  forall (text_content olt_name : str) (out : list record),
    parse_olt_output text_content olt_name = Ok out ->
    Forall (fun r => Type_ r <> s_ "1112" /\ Type_ r <> s_ "1108") out.
Proof.
  intros text_content olt_name out Hparse.
  pose proof (@parse_records_origin text_content olt_name out Hparse) as Ho.
  revert Ho. apply Forall_impl.
  intros r (sec & item & _ & _ & (_ & _ & _ & _ & H2)).
  destruct (dict_get (fst item) (section_table2 sec)) as [d|] eqn:E;
    cbn in H2.
  - apply dict_get_In in E.
    pose proof (section_table2_entries sec) as Hent.
    rewrite Forall_forall in Hent. apply Hent in E.
    destruct E as (_ & _ & (t & _ & Hty) & _). cbn in Hty.
    destruct H2 as (_ & -> & _). rewrite Hty. apply map_type_never_code.
  - destruct H2 as (_ & -> & _). split; discriminate.
Qed.

Lemma type_codes_never_output_witness :
  Forall (fun r => Type_ r <> s_ "1112" /\ Type_ r <> s_ "1108")
         (returned (parse_olt_output report_one_device (s_ "OLT-01-PNHHQ"))).
Proof.
  apply (@type_codes_never_output report_one_device (s_ "OLT-01-PNHHQ")).
  vm_compute. reflexivity.
Defined.

(* ================================================================== *)
(** * The loop over the uploaded files *)
(* ================================================================== *)

(** One file: what it contributes is appended; it counts as processed when
    it contributes records, and as failed otherwise. *)
Lemma process_file_step (total : nat) (b : batch) (file : upload) :
  master_data_list (process_file total b file)
  = master_data_list b ++ contributed file
  /\ files_processed (process_file total b file)
     = files_processed b + (if has_records file then 1 else 0)
  /\ files_failed (process_file total b file)
     = files_failed b + (if has_records file then 0 else 1)
  /\ filter is_failure (notices (process_file total b file))
     = filter is_failure (notices b) ++ failure_notice file
  /\ length (notices (process_file total b file))
     = length (notices b)
       + (if total <=? 10 then 1 else if has_records file then 0 else 1).
Proof.
  unfold process_file, has_records, contributed, failure_notice, file_records.
  destruct (parse_olt_output (file_text file)
                             (fst (splitext (file_name file))))
    as [[|r out]|e];
    cbn [returned nonempty master_data_list files_processed files_failed
         notices];
    rewrite filter_app, length_app.
  - rewrite ?app_nil_r. cbn [filter is_failure length].
    rewrite ?app_nil_r. repeat split; try lia.
    destruct (total <=? 10); lia.
  - rewrite ?app_nil_r. repeat split; try lia.
    + destruct (total <=? 10); cbn [filter is_failure];
        now rewrite ?app_nil_r.
    + destruct (total <=? 10); cbn [length]; lia.
  - rewrite ?app_nil_r. cbn [filter is_failure length].
    repeat split; try lia. destruct (total <=? 10); lia.
Qed.

Lemma process_files_from (total : nat) (files : list upload) :
  forall b,
    master_data_list (fold_left (process_file total) files b)
    = master_data_list b ++ concat (map contributed files)
    /\ files_processed (fold_left (process_file total) files b)
       = files_processed b + length (filter has_records files)
    /\ files_failed (fold_left (process_file total) files b)
       = files_failed b + length (filter without_records files)
    /\ filter is_failure (notices (fold_left (process_file total) files b))
       = filter is_failure (notices b) ++ flat_map failure_notice files
    /\ length (notices (fold_left (process_file total) files b))
       = length (notices b)
         + (if total <=? 10 then length files
            else length (filter without_records files)).
Proof.
  induction files as [|file files IH]; intros b; cbn [fold_left].
  - cbn. rewrite !app_nil_r.
    repeat split; auto; try lia. destruct (total <=? 10); lia.
  - destruct (process_file_step total b file) as (Hm & Hp & Hf & Hn & Hl).
    destruct (IH (process_file total b file))
      as (Hm' & Hp' & Hf' & Hn' & Hl').
    rewrite Hm', Hp', Hf', Hn', Hl', Hm, Hp, Hf, Hn, Hl.
    cbn [map concat flat_map filter length]. unfold without_records.
    rewrite <- !app_assoc.
    split; [reflexivity|]. split; [destruct (has_records file); cbn; lia|].
    split; [destruct (has_records file); cbn; lia|].
    split; [reflexivity|].
    destruct (total <=? 10); destruct (has_records file); cbn; lia.
Qed.

(** X11.  The loop over the uploaded files collects, in the order of the
    upload, the records that the parser returns for each file, parsed
    under the OLT name that its file name gives; a file on which the
    parser raises adds no record.  A file counts as processed when the
    parser returns records for it, and as failed when the parser returns
    none or raises.  The reports of an exception among the messages are
    those of the files on which the parser raises, one each, in the order
    of the upload. *)
Theorem files_collected_in_order :
  forall uploaded_files : list upload,
    master_data_list (process_files uploaded_files)
    = concat (map contributed uploaded_files)
    /\ files_processed (process_files uploaded_files)
       = length (filter has_records uploaded_files)
    /\ files_failed (process_files uploaded_files)
       = length (filter without_records uploaded_files)
    /\ filter is_failure (notices (process_files uploaded_files))
       = flat_map failure_notice uploaded_files.
Proof.
  intros files. unfold process_files.
  destruct (process_files_from (length files) files empty_batch)
    as (Hm & Hp & Hf & Hn & _).
  cbn in Hm, Hp, Hf, Hn. auto.
Qed.

(** A file with a device id beyond the limit of [int] between two files
    without: its records are missing, and it is reported as failed. *)
Example long_id_file_reported :
  master_data_list
    (process_files [upload_one_device; upload_long_id; upload_one_device])
  = [record_one_device; record_one_device]
  /\ filter is_failure
       (notices
          (process_files [upload_one_device; upload_long_id;
                          upload_one_device]))
     = [Failed (file_name upload_long_id) ValueError].
Proof. vm_compute. split; reflexivity. Qed.

Lemma filter_partition_length (A : Type) (p : A -> bool) (l : list A) :
  length (filter p l) + length (filter (fun a => negb (p a)) l) = length l.
Proof.
  induction l as [|a l IH]; cbn; [reflexivity|].
  destruct (p a); cbn; lia.
Qed.

(** X12.  The two counters share out the files: every uploaded file is
    counted once, as processed or as failed.  With ten files or fewer each
    file gets one message; with more, only the files without data do. *)
Theorem every_file_counted_once :
  forall uploaded_files : list upload,
    files_processed (process_files uploaded_files)
    + files_failed (process_files uploaded_files)
    = length uploaded_files
    /\ length (notices (process_files uploaded_files))
       = (if length uploaded_files <=? 10 then length uploaded_files
          else files_failed (process_files uploaded_files)).
Proof.
  intros files. unfold process_files.
  destruct (process_files_from (length files) files empty_batch)
    as (_ & Hp & Hf & _ & Hl).
  rewrite Hp, Hf, Hl. cbn. split; [|reflexivity].
  apply (filter_partition_length has_records files).
Qed.

Lemma concat_contributed_nil (files : list upload) :
  concat (map contributed files) = [] <-> filter has_records files = [].
Proof.
  induction files as [|file files IH]; cbn [map concat filter]; [tauto|].
  unfold has_records at 1.
  destruct (contributed file) as [|r out]; cbn [nonempty app]; [exact IH|].
  split; discriminate.
Qed.

(** X13.  After the loop the page does not fall through both branches:
    for a non-empty upload either some file was processed, the list of
    records is not empty and the display block is entered, or no file was
    processed, every file counts as failed, the list is empty and the
    error that no data could be extracted is put on the page. *)
Theorem display_block_or_error :
  forall uploaded_files : list upload,
    uploaded_files <> [] ->
    (display_branch (process_files uploaded_files) = Display_block
     /\ 0 < files_processed (process_files uploaded_files)
     /\ master_data_list (process_files uploaded_files) <> [])
    \/ (display_branch (process_files uploaded_files) = No_data_error
        /\ files_processed (process_files uploaded_files) = 0
        /\ files_failed (process_files uploaded_files)
           = length uploaded_files
        /\ master_data_list (process_files uploaded_files) = []).
Proof.
  intros files Hne. unfold process_files.
  destruct (process_files_from (length files) files empty_batch)
    as (Hm & Hp & Hf & _ & _).
  cbn in Hm, Hp, Hf.
  pose proof (filter_partition_length has_records files) as Hpart.
  change (fun a : upload => negb (has_records a))
    with without_records in Hpart.
  unfold display_branch. rewrite Hm, Hp, Hf.
  destruct (concat (map contributed files)) as [|r rest] eqn:Ec.
  - right. apply concat_contributed_nil in Ec. rewrite Ec in *.
    cbn in Hpart. cbn [length Nat.eqb andb].
    assert (Hpos : 0 < length (filter without_records files)).
    { destruct files; [congruence|]. cbn [length] in Hpart. lia. }
    apply Nat.ltb_lt in Hpos. rewrite Hpos.
    repeat split; auto.
  - left. split; [reflexivity|]. split; [|discriminate].
    destruct (filter has_records files) eqn:Ef; [|cbn; lia].
    apply concat_contributed_nil in Ef. congruence.
Qed.

Lemma display_block_or_error_witness :
  display_branch (process_files [upload_one_device]) = Display_block
  /\ 0 < files_processed (process_files [upload_one_device]).
Proof.
  assert (Hne : [upload_one_device] <> []) by discriminate.
  destruct (display_block_or_error Hne) as [H|H].
  - split; apply H.
  - exfalso. destruct H as (_ & H0 & _). vm_compute in H0. discriminate H0.
Defined.

Lemma rfind_from_absent (c : ascii) (s : str) :
  forall i,
    forallb (fun x => negb (Ascii.eqb x c)) s = true ->
    rfind_from c i s = (-1)%Z.
Proof.
  induction s as [|x s IH]; cbn [rfind_from forallb]; intros i H;
    [reflexivity|].
  apply andb_true_iff in H. destruct H as [Hx Hs].
  rewrite IH by assumption. cbn.
  destruct (Ascii.eqb x c); [discriminate|reflexivity].
Qed.

Lemma rfind_from_last (c : ascii) (a b : str) :
  forallb (fun x => negb (Ascii.eqb x c)) b = true ->
  forall i,
    (0 <= i)%Z ->
    rfind_from c i (a ++ c :: b) = (i + Z.of_nat (length a))%Z.
Proof.
  intros Hb. induction a as [|x a IH]; intros i Hi.
  - cbn [app rfind_from length]. rewrite rfind_from_absent by assumption.
    cbn. rewrite Ascii.eqb_refl. lia.
  - cbn [app rfind_from]. rewrite IH by lia.
    assert (H : (0 <=? i + 1 + Z.of_nat (length a))%Z = true)
      by (apply Z.leb_le; lia).
    rewrite H. cbn [length]. lia.
Qed.

Lemma splitext_rejoins (p : str) : fst (splitext p) ++ snd (splitext p) = p.
Proof.
  unfold splitext.
  destruct (_ && _); cbn [fst snd]; [apply firstn_skipn|apply app_nil_r].
Qed.

Lemma splitext_extension (stem ext : str) :
  forallb (fun c => negb (Ascii.eqb c "/")) stem = true ->
  existsb (fun c => negb (Ascii.eqb c ".")) stem = true ->
  forallb (fun c => negb (Ascii.eqb c ".")) ext = true ->
  forallb (fun c => negb (Ascii.eqb c "/")) ext = true ->
  splitext (stem ++ "."%char :: ext) = (stem, "."%char :: ext).
Proof.
  intros Hstem Hdots Hext1 Hext2. unfold splitext, rfind.
  rewrite (@rfind_from_last "." stem ext Hext1 0%Z) by lia.
  rewrite rfind_from_absent.
  2:{ rewrite forallb_app, Hstem. cbn [forallb]. now rewrite Hext2. }
  replace (Z.to_nat (-1 + 1)) with 0 by reflexivity.
  replace (Z.to_nat (0 + Z.of_nat (length stem) - (-1 + 1)))
    with (length stem) by lia.
  replace (Z.to_nat (0 + Z.of_nat (length stem))) with (length stem) by lia.
  cbn [skipn].
  assert (Hlt : (-1 <? 0 + Z.of_nat (length stem))%Z = true)
    by (apply Z.ltb_lt; lia).
  rewrite Hlt.
  rewrite firstn_app, Nat.sub_diag, firstn_all. cbn [firstn].
  rewrite app_nil_r, Hdots. cbn [andb].
  rewrite skipn_app, skipn_all, Nat.sub_diag. reflexivity.
Qed.

(** X14.  The OLT name of an uploaded file is its file name without the
    extension.  For a file name made of a stem, a dot and an extension,
    where the stem has no slash and is not made of dots only and the
    extension has neither dot nor slash, the file is parsed under the stem;
    so [HWGPON2U-01-PNHHQ.txt] is parsed under [HWGPON2U-01-PNHHQ].  In
    every case the OLT name is the beginning of the file name: the name and
    the extension that is cut off join back to the file name. *)
Theorem olt_name_from_file_name :
  (forall (stem ext text_content : str),
      forallb (fun c => negb (Ascii.eqb c "/")) stem = true ->
      existsb (fun c => negb (Ascii.eqb c ".")) stem = true ->
      forallb (fun c => negb (Ascii.eqb c ".")) ext = true ->
      forallb (fun c => negb (Ascii.eqb c "/")) ext = true ->
      file_records {| file_name := stem ++ "."%char :: ext;
                      file_text := text_content |}
      = parse_olt_output text_content stem)
  /\ (forall name : str,
         fst (splitext name) ++ snd (splitext name) = name).
Proof.
  split.
  - intros stem ext text_content H1 H2 H3 H4. unfold file_records.
    cbn [file_name file_text]. now rewrite splitext_extension.
  - exact splitext_rejoins.
Qed.

Lemma olt_name_from_file_name_witness :
  file_records upload_one_device
  = parse_olt_output report_one_device (s_ "HWGPON2U-01-PNHHQ").
Proof.
  apply (proj1 olt_name_from_file_name
               (s_ "HWGPON2U-01-PNHHQ") (s_ "txt") report_one_device);
    reflexivity.
Defined.

(* ================================================================== *)
(** * The end of a port, the margins of a line, the NOC1 rule *)
(* ================================================================== *)

Lemma parse_lines_port_header_alone (olt_name hdr : str) :
  search PORT_HEADER_RE (strip hdr) <> None ->
  parse_lines olt_name [hdr] = Ok [].
Proof.
  intros Hh. rewrite parse_lines_sections. cbn [sections_from].
  destruct (strip hdr) as [|c line] eqn:E.
  - exfalso. apply Hh. reflexivity.
  - unfold port_of.
    destruct (search PORT_HEADER_RE (c :: line)); [|congruence].
    reflexivity.
Qed.

(** X15.  The two flushes agree.  A port is closed in the same way by the
    end of the input and by a port header: a port header put after the
    last line of a report changes nothing in what the parser returns. *)
Theorem trailing_port_header_changes_nothing :
  forall (olt_name hdr : str) (lines : list str),
    search PORT_HEADER_RE (strip hdr) <> None ->
    parse_lines olt_name (lines ++ [hdr]) = parse_lines olt_name lines.
Proof.
  intros olt_name hdr lines Hh.
  rewrite (@parse_lines_app olt_name lines [] hdr Hh).
  rewrite (@parse_lines_port_header_alone olt_name hdr Hh).
  destruct (parse_lines olt_name lines) as [a|]; cbn [bind]; [|reflexivity].
  now rewrite app_nil_r.
Qed.

Lemma trailing_port_header_changes_nothing_witness :
  parse_lines (s_ "OLT-01-PNHHQ")
              (splitlines report_one_device ++ [s_ port_header_0_1_0])
  = parse_lines (s_ "OLT-01-PNHHQ") (splitlines report_one_device).
Proof.
  apply trailing_port_header_changes_nothing.
  vm_compute. discriminate.
Defined.

Lemma strip_fixed (c d : ascii) (x y : str) :
  isspace c = false -> isspace d = false ->
  c :: x = y ++ [d] -> strip (c :: x) = c :: x.
Proof.
  intros Hc Hd Hy. unfold strip, rstrip, lstrip.
  rewrite (@dropwhile_id isspace c x Hc).
  rewrite Hy, rev_app_distr. cbn [rev app].
  rewrite (@dropwhile_id isspace d (rev y) Hd).
  change (d :: rev y) with (rev [d] ++ rev y).
  now rewrite <- rev_app_distr, rev_involutive.
Qed.

(** Stripping a stripped text changes nothing. *)
Lemma strip_idempotent (s : str) : strip (strip s) = strip s.
Proof.
  destruct (strip s) as [|c x] eqn:E; [reflexivity|].
  assert (Hc : isspace c = false).
  { unfold strip, rstrip in E.
    destruct (dropwhile_head isspace s) as [Hl|(c0 & t & Hl & Hc0)];
      unfold lstrip in E; rewrite Hl in E; [discriminate|].
    cbn [rev] in E.
    destruct (@dropwhile_keeps_last isspace (rev t) c0 Hc0) as (a' & Ha).
    rewrite Ha, rev_app_distr in E. cbn in E. now injection E as <- _. }
  destruct (last_char (c :: x)) as [H|(y & d & Hy)]; [discriminate|].
  assert (Hd : isspace d = false).
  { rewrite Hy in E. now apply strip_last in E. }
  exact (@strip_fixed c d x y Hc Hd Hy).
Qed.

Lemma step_strip (olt_name pop : str) (st : pstate) (raw : str) :
  step olt_name pop st (strip raw) = step olt_name pop st raw.
Proof. unfold step. now rewrite strip_idempotent. Qed.

Lemma loop_strip (olt_name pop : str) (lines : list str) :
  forall st,
    loop olt_name pop st (map strip lines) = loop olt_name pop st lines.
Proof.
  induction lines as [|raw rest IH]; intros st; [reflexivity|].
  cbn [map loop]. rewrite step_strip.
  destruct (step olt_name pop st raw); cbn [bind]; [apply IH|reflexivity].
Qed.

(** X16.  The margins of a line do not count: stripping every line of a
    report of its leading and trailing whitespace leaves the result of the
    parser as it is. *)
Theorem line_margins_ignored :
  forall (olt_name : str) (lines : list str),
    parse_lines olt_name (map strip lines) = parse_lines olt_name lines.
Proof.
  intros olt_name lines. unfold parse_lines. now rewrite loop_strip.
Qed.

(** X17.  The NOC1 rule decides nothing for a last segment of five
    characters or more: such a segment is the PoP whether it ends with
    NOC1 or not, and whatever its uppercase is, since the rule of the five
    characters gives the same answer.  The SHVNOC1 of the comment in the
    program is such a segment.  The NOC1 rule can change the PoP only for
    a last segment of four characters or fewer. *)
Theorem noc1_rule_redundant_from_five_characters :
  forall olt_name : str,
    let parts := split_on "-" olt_name in
    let final := last parts [] in
    3 <= length parts ->
    5 <= length final ->
    pop_name olt_name = final.
Proof.
  intros olt_name parts final Hparts Hfinal. unfold pop_name.
  fold parts. fold final.
  apply Nat.leb_le in Hparts, Hfinal. rewrite Hparts, Hfinal.
  now destruct (endswith (codes (s_ "NOC1")) (upper final)).
Qed.

Lemma noc1_rule_redundant_from_five_characters_witness :
  pop_name (s_ "SITE-A-SHVNOC1") = s_ "SHVNOC1"
  /\ pop_name (s_ "SITE-A-SHVNOC2") = s_ "SHVNOC2".
Proof.
  split.
  - apply (noc1_rule_redundant_from_five_characters (s_ "SITE-A-SHVNOC1"));
      vm_compute; lia.
  - apply (noc1_rule_redundant_from_five_characters (s_ "SITE-A-SHVNOC2"));
      vm_compute; lia.
Defined.
